(** * The GitHub MCP bridge (src/index.js), embedded in Rocq

    The bridge is a set of tool handlers over the GitHub REST API.  The
    embedding follows the source function by function:

    - [JS]: the fragment of JavaScript the handlers rely on (strings as
      sequences of UTF-16 code units, JSON values, [ToString], [ToBoolean],
      property access, [slice], [split], [join]), with what the language
      leaves to the engine as a parameter ([Engine]);
    - section [Bridge]: the handlers themselves, written in a state and
      exception monad over an arbitrary upstream (the GitHub API is a
      parameter: a transition function on some world state);
    - the theorems about them, and test doubles of the upstream on which
      they are exercised. *)

From Stdlib Require Import ZArith List Ascii String Lia DecimalString DecimalZ.
From stdpp Require Import base list.
Import ListNotations.
Local Open Scope Z_scope.

(* ===================================================================== *)
(** ** The JavaScript fragment *)
(* ===================================================================== *)

Module JS.

(** A JavaScript string is a sequence of UTF-16 code units; [length] counts
    code units and [slice] cuts between them. *)
Definition code_unit := N.
Definition jstring := list code_unit.

(** A string literal of the source whose characters are all ASCII. *)
Definition lit (s : string) : jstring :=
  map N_of_ascii (list_ascii_of_string s).
Arguments lit s%_string.

(** The inverse reading, used by the test doubles to decode what the
    handlers send. *)
Definition to_string (s : jstring) : string :=
  string_of_list_ascii (map ascii_of_N s).

Definition nl : jstring := [10%N].           (* "\n" *)
Definition a_acute : jstring := [225%N].     (* U+00E1 *)
Definition i_acute : jstring := [237%N].     (* U+00ED *)
Definition o_acute : jstring := [243%N].     (* U+00F3 *)
Definition em_dash : jstring := [8212%N].    (* U+2014 *)

(** [a === b] on strings *)
Fixpoint jstring_eqb (a b : jstring) : bool :=
  match a, b with
  | [], [] => true
  | x :: a, y :: b => N.eqb x y && jstring_eqb a b
  | _, _ => false
  end.

(** JavaScript values as [JSON.parse] and property access produce them.
    Numbers are the integer-valued ones (every count and identifier the
    GitHub API returns); an object is the list of its own properties, all
    of them data: parsed JSON holds no function. *)
#[warnings="-register-all"] Inductive value :=
| JUndefined
| JNull
| JBool (b : bool)
| JNum (n : Z)
| JStr (s : jstring)
| JArr (items : list value)
| JObj (fields : list (jstring * value)).

(** [String(n)] and [`${n}`] for a safe integer [n] (one below [2^53] in
    absolute value): its decimal numeral.  The numbers the handlers print
    of their own are safe integers: the arguments their schemas admit (at
    most 200000), lengths, page counters and HTTP status codes. *)
Definition Z_to_jstring (n : Z) : jstring :=
  lit (NilEmpty.string_of_int (Z.to_int n)).

(** [Array.prototype.join(sep)] on an array of strings. *)
Fixpoint join (sep : jstring) (l : list jstring) : jstring :=
  match l with
  | [] => []
  | [s] => s
  | s :: rest => s ++ sep ++ join sep rest
  end.

(** Exceptions.  [Error msg] is [new Error(msg)]; the other three are the
    ones the platform raises (their messages depend on the engine). *)
Inductive exn :=
| Error (message : jstring)
| TypeError
| RangeError
| SyntaxError.

(** The result of running a piece of code.  [Diverge] is a loop that has
    not finished within the iterations granted to it. *)
Inductive outcome (A : Type) :=
| Ok (a : A)
| Throw (e : exn)
| Diverge.
Arguments Ok {A} a.
Arguments Throw {A} e.
Arguments Diverge {A}.

(** The exception monad of the pure helpers. *)
#[global] Instance outcome_ret : MRet outcome := fun _ a => Ok a.
#[global] Instance outcome_bind : MBind outcome := fun _ _ f c =>
  match c with
  | Ok a => f a
  | Throw e => Throw e
  | Diverge => Diverge
  end.

(** [l.map(f)] where [f] may throw. *)
Section map_throwing.

Context {A B : Type} (f : A -> outcome B).

Fixpoint map_throwing (l : list A) : outcome (list B) :=
  match l with
  | [] => Ok []
  | x :: rest => y ← f x; ys ← map_throwing rest; Ok (y :: ys)
  end.

End map_throwing.

(** Whether an object has a property of its own called [k]. *)
Definition has_own (k : jstring) (fields : list (jstring * value)) : bool :=
  existsb (fun p => jstring_eqb k (fst p)) fields.

(** What is left to the engine the bridge runs on:
    - the numeral of an integer that is not a safe one (the number is
      rounded to a double, and written with an exponent from [1e21] on);
    - the number of arguments a call may take before the engine gives up
      with a [RangeError]: tens of thousands or more, depending on the
      engine, and in any case more than the hundred records of a page. *)
Record Engine := {
  large_number_text : Z -> jstring;
  max_arguments : Z;
  max_arguments_hundred : 100 <= max_arguments
}.

Section Conversions.

Variable engine : Engine.

(** [`${n}`] for a number read from JSON, of any size. *)
Definition Number_toString (n : Z) : jstring :=
  if Z.abs n <? 2 ^ 53 then Z_to_jstring n else large_number_text engine n.

(** [ToString], as a template literal and [join] apply it to a value.
    An array prints its elements joined by commas, [null] and [undefined]
    elements as the empty string.  An object is printed by the [toString]
    it inherits, unless it has a [toString] of its own: that one is data,
    not a function, the inherited [valueOf] returns the object itself, and
    the conversion throws. *)
Fixpoint ToString (v : value) : outcome jstring :=
  match v with
  | JUndefined => Ok (lit "undefined")
  | JNull => Ok (lit "null")
  | JBool true => Ok (lit "true")
  | JBool false => Ok (lit "false")
  | JNum n => Ok (Number_toString n)
  | JStr s => Ok s
  | JArr items =>
      texts ← map_throwing (fun x => match x with
                                     | JUndefined | JNull => Ok []
                                     | _ => ToString x
                                     end) items;
      Ok (join (lit ",") texts)
  | JObj fields =>
      if has_own (lit "toString") fields then Throw TypeError
      else Ok (lit "[object Object]")
  end.

End Conversions.


(** [ToBoolean]: what [!v], [v ? a : b] and [v || w] test. *)
Definition ToBoolean (v : value) : bool :=
  match v with
  | JUndefined | JNull => false
  | JBool b => b
  | JNum n => negb (n =? 0)
  | JStr s => match s with [] => false | _ => true end
  | JArr _ | JObj _ => true
  end.

Fixpoint lookup_field (k : jstring) (fields : list (jstring * value)) : value :=
  match fields with
  | [] => JUndefined
  | (k', v) :: rest => if jstring_eqb k k' then v else lookup_field k rest
  end.

(** [v.k] for the property names the handlers read: none of them is a
    property that objects inherit, nor one of strings, numbers, booleans or
    arrays, so that an object yields its own property, or [undefined], and
    the other values [undefined]; on [null] and [undefined] the access
    throws. *)
Definition get (v : value) (k : jstring) : outcome value :=
  match v with
  | JUndefined | JNull => Throw TypeError
  | JObj fields => Ok (lookup_field k fields)
  | _ => Ok JUndefined
  end.

(** [v?.k] *)
Definition get_opt (v : value) (k : jstring) : outcome value :=
  match v with
  | JUndefined | JNull => Ok JUndefined
  | _ => get v k
  end.

(** [x.slice(0, e)], the same algorithm on strings and arrays: a negative
    [e] counts from the end. *)
Definition slice0 {A} (l : list A) (e : Z) : list A :=
  let len := Z.of_nat (length l) in
  let final := if e <? 0 then Z.max (len + e) 0 else Z.min e len in
  take (Z.to_nat final) l.

(** [s.split(sep)] for a one-unit separator. *)
Fixpoint split (sep : code_unit) (s : jstring) : list jstring :=
  match s with
  | [] => [[]]
  | c :: rest =>
      if N.eqb c sep then [] :: split sep rest
      else match split sep rest with
           | [] => [[c]]
           | w :: ws => (c :: w) :: ws
           end
  end.

(** [l[i]] for an array of strings: the string at that index, or
    [undefined] ([None]) out of range. *)
Definition index (l : list jstring) (i : Z) : option jstring :=
  if i <? 0 then None else l !! Z.to_nat i.

(** A string or [undefined], as a value and as a template literal prints
    it. *)
Definition as_value (x : option jstring) : value :=
  match x with
  | Some s => JStr s
  | None => JUndefined
  end.

Definition as_text (x : option jstring) : jstring :=
  match x with
  | Some s => s
  | None => lit "undefined"
  end.

(** [l.findIndex(p)] *)
Definition findIndex {A} (p : A -> bool) (l : list A) : Z :=
  match list_find (fun x => p x = true) l with
  | Some (i, _) => Z.of_nat i
  | None => -1
  end.

(** [path.split("/").filter(Boolean)]: the non-empty segments of a path. *)
Definition segments (path : jstring) : list jstring :=
  List.filter (fun p => ToBoolean (JStr p)) (split 47%N path).

(** [s.replace(/\n/g, by)] *)
Definition replace_newlines (by_ : jstring) (s : jstring) : jstring :=
  flat_map (fun c => if N.eqb c 10 then by_ else [c]) s.

End JS.
Import JS.

(* ===================================================================== *)
(** ** Data exchanged with the platform and with GitHub *)
(* ===================================================================== *)

(** What [parsePrUrl] reads of [new URL(pr_url)]. *)
Record URL := { hostname : jstring; pathname : jstring }.

(** The address of an API request: the string given to [new URL] (or used
    as it is) and the search parameters set on it, in order.  Its
    serialisation by [url.toString()] is the platform's. *)
Record Address := { resource : jstring; searchParams : list (jstring * jstring) }.

Definition address (s : jstring) : Address :=
  {| resource := s; searchParams := [] |}.

(** [url.searchParams.set(k, v)]: overwrite the first [k], drop the other
    ones, append when there is none. *)
Fixpoint params_set (k v : jstring) (ps : list (jstring * jstring))
  : list (jstring * jstring) :=
  match ps with
  | [] => [(k, v)]
  | (k', v') :: rest =>
      if jstring_eqb k k'
      then (k, v) :: List.filter (fun p => negb (jstring_eqb k (fst p))) rest
      else (k', v') :: params_set k v rest
  end.

Definition searchParams_set (k v : jstring) (u : Address) : Address :=
  {| resource := resource u; searchParams := params_set k v (searchParams u) |}.

Record Request := {
  url : Address;
  Authorization : jstring;
  Accept : jstring
}.

(** An HTTP response: its status, and its body as [resp.text()] and as
    [resp.json()] deliver it ([None]: the body is not JSON). *)
Record Response := {
  status : Z;
  body_text : jstring;
  body_json : option value
}.

(** [resp.ok] *)
Definition ok (resp : Response) : bool :=
  (200 <=? status resp) && (status resp <=? 299).

Record ContentBlock := { type : jstring; text : jstring }.
Record ToolResult := { content : list ContentBlock }.

Definition text_result (t : jstring) : ToolResult :=
  {| content := [ {| type := lit "text"; text := t |} ] |}.

(** The object [parsePrUrl] returns: three elements of the array of path
    segments. *)
Record PullRequestReference := {
  owner : option jstring;
  repo : option jstring;
  number : option jstring
}.

(** [v.map(f)] on a value: only arrays have the method (on an object a
    property called [map] is data, and calling it throws as well). *)
Definition array_map {B} (f : value -> outcome B) (v : value) : outcome (list B) :=
  match v with
  | JArr items => map_throwing f items
  | _ => Throw TypeError
  end.

(* ===================================================================== *)
(** ** Test doubles of the platform and of GitHub *)
(* ===================================================================== *)

(** Up to the first unit that satisfies [stop], and from it on. *)
Fixpoint break_at (stop : code_unit -> bool) (s : jstring) : jstring * jstring :=
  match s with
  | [] => ([], [])
  | c :: rest =>
      if stop c then ([], s)
      else let '(a, b) := break_at stop rest in (c :: a, b)
  end.

Fixpoint strip_prefix (p s : jstring) : option jstring :=
  match p, s with
  | [], _ => Some s
  | x :: p, y :: s => if N.eqb x y then strip_prefix p s else None
  | _ :: _, [] => None
  end.

(** A stand-in for [new URL] on plain [https://host/path?query#fragment]
    addresses (lower-case host, no credentials, port, escapes or dot
    segments), where the platform's parser leaves host and path as written. *)
Definition simple_new_URL (s : jstring) : option URL :=
  match strip_prefix (lit "https://") s with
  | None => None
  | Some rest =>
      let '(host, after) :=
        break_at (fun x => N.eqb x 47 || N.eqb x 63 || N.eqb x 35) rest in
      let '(path, _) := break_at (fun x => N.eqb x 63 || N.eqb x 35) after in
      match host with
      | [] => None
      | _ => Some {| hostname := host;
                     pathname := match path with [] => lit "/" | _ => path end |}
      end
  end.

(** Reading a decimal numeral back. *)
Definition jstring_to_Z (s : jstring) : option Z :=
  option_map Z.of_int (NilEmpty.int_of_string (to_string s)).

Fixpoint param (k : jstring) (ps : list (jstring * jstring)) : option jstring :=
  match ps with
  | [] => None
  | (k', v) :: rest => if jstring_eqb k k' then Some v else param k rest
  end.

Definition int_param (k : jstring) (dflt : Z) (u : Address) : Z :=
  match param k (searchParams u) with
  | Some v => default dflt (jstring_to_Z v)
  | None => dflt
  end.

(** Page [p] of size [k] of the records [items], as GitHub counts pages:
    the records from [(p-1)*k] up to [p*k]. *)
Definition page_of (items : list value) (k p : Z) : list value :=
  take (Z.to_nat k) (drop (Z.to_nat ((p - 1) * k)) items).

(** The response that carries a page (its body as text is left empty: the
    collector reads it as JSON). *)
Definition page_response (items : list value) (k p : Z) : Response :=
  {| status := 200; body_text := [];
     body_json := Some (JArr (page_of items k p)) |}.

(** An upstream that holds the records [items] and serves them in pages,
    of size 30 and page 1 when the parameters are left out.  It has no
    state. *)
Definition paged_upstream (items : list value) (req : Request) (w : unit)
  : (exn + Response) * unit :=
  let k := int_param (lit "per_page") 30 (url req) in
  let p := int_param (lit "page") 1 (url req) in
  (inr (page_response items k p), tt).

(** An upstream that answers every request with the same response. *)
Definition constant_upstream (resp : Response) (req : Request) (w : unit)
  : (exn + Response) * unit :=
  (inr resp, tt).

(** An upstream for one pull request: its metadata, its file records
    (paged) and its diff, told apart by what the request asks for. *)
Definition pull_request_upstream (pr : value) (files : list value)
    (diff : jstring) (req : Request) (w : unit) : (exn + Response) * unit :=
  if jstring_eqb (Accept req) (lit "application/vnd.github.v3.diff")
  then (inr {| status := 200; body_text := diff; body_json := None |}, tt)
  else match searchParams (url req) with
       | [] => (inr {| status := 200; body_text := []; body_json := Some pr |}, tt)
       | _ => paged_upstream files req w
       end.

(** The pull request of the end-to-end scenario: acme/widgets #42. *)
Definition scenario_url : jstring := lit "https://github.com/acme/widgets/pull/42".

Definition scenario_pr : value :=
  JObj [ (lit "html_url", JStr scenario_url);
         (lit "title", JStr (lit "Fix bug"));
         (lit "user", JObj [ (lit "login", JStr (lit "alice")) ]);
         (lit "state", JStr (lit "open"));
         (lit "draft", JBool false);
         (lit "merged", JBool false);
         (lit "base", JObj [ (lit "ref", JStr (lit "main")) ]);
         (lit "head", JObj [ (lit "ref", JStr (lit "fix")) ]);
         (lit "commits", JNum 3);
         (lit "changed_files", JNum 2);
         (lit "additions", JNum 10);
         (lit "deletions", JNum 4);
         (lit "body", JStr (lit "Fixes #1")) ].

Definition file_record (filename : string) (additions deletions : Z)
    (f_status : string) (patch : jstring) : value :=
  JObj [ (lit "filename", JStr (lit filename));
         (lit "additions", JNum additions);
         (lit "deletions", JNum deletions);
         (lit "status", JStr (lit f_status));
         (lit "patch", JStr patch) ].

Definition scenario_files : list value :=
  [ file_record "src/widget.js" 8 3 "modified"
      (lit "@@ -1,2 +1,2 @@" ++ nl ++ lit "-old" ++ nl ++ lit "+new");
    file_record "README.md" 2 1 "modified" (lit "@@ -1 +1 @@") ].

Definition scenario_diff : jstring :=
  lit "diff --git a/README.md b/README.md" ++ nl ++ lit "+More words".

(** The upstream of the scenario. *)
Definition scenario_upstream : Request -> unit -> (exn + Response) * unit :=
  pull_request_upstream scenario_pr scenario_files scenario_diff.

Definition not_found : Response :=
  {| status := 404; body_text := lit "Not Found"; body_json := None |}.

Definition no_pull_requests : Response :=
  {| status := 200; body_text := lit "[]"; body_json := Some (JArr []) |}.

(** A success response whose JSON is an object, not a list. *)
Definition not_a_list : Response :=
  {| status := 200; body_text := lit "{}";
     body_json := Some (JObj [ (lit "message", JStr (lit "Moved")) ]) |}.

(** Two pull requests, as the list endpoint returns them. *)
Definition pull_request_entry (n : Z) (title login : string) : value :=
  JObj [ (lit "number", JNum n);
         (lit "title", JStr (lit title));
         (lit "user", JObj [ (lit "login", JStr (lit login)) ]);
         (lit "html_url",
          JStr (lit "https://github.com/acme/widgets/pull/" ++ Z_to_jstring n)) ].

Definition two_pull_requests : Response :=
  {| status := 200; body_text := [];
     body_json := Some (JArr [ pull_request_entry 42 "Fix bug" "alice";
                               pull_request_entry 41 "Add docs" "bob" ]) |}.

(** Two repositories, as the list endpoint returns them. *)
Definition two_repositories : Response :=
  {| status := 200; body_text := [];
     body_json :=
       Some (JArr [ JObj [ (lit "full_name", JStr (lit "acme/widgets"));
                           (lit "private", JBool false) ];
                    JObj [ (lit "full_name", JStr (lit "acme/vault"));
                           (lit "private", JBool true) ] ]) |}.

(** A binary file: GitHub gives no patch for it. *)
Definition binary_file_fields : list (jstring * value) :=
  [ (lit "filename", JStr (lit "logo.png"));
    (lit "additions", JNum 0);
    (lit "deletions", JNum 0);
    (lit "status", JStr (lit "added")) ].

(** An upstream that cannot be reached: every call is rejected. *)
Definition unreachable_upstream (req : Request) (w : unit)
  : (exn + Response) * unit :=
  (inl (Error (lit "fetch failed")), tt).

(** A success response whose body is a page of HTML. *)
Definition not_json : Response :=
  {| status := 200; body_text := lit "<html>"; body_json := None |}.

(** An engine for the examples: a call takes up to 65535 arguments.  None
    of the examples prints an integer that is not safe; the numeral given
    for them is the one of [1e21]. *)
Definition example_engine : Engine :=
  {| large_number_text := fun _ => lit "1e+21";
     max_arguments := 65535;
     max_arguments_hundred := ltac:(lia) |}.

(** A success response with a page of seventy thousand records. *)
Definition huge_page : Response :=
  {| status := 200; body_text := [];
     body_json := Some (JArr (repeat JNull (Z.to_nat 70000))) |}.

(** A file record whose name is an object with a [toString] of its own. *)
Definition unprintable_file_fields : list (jstring * value) :=
  [ (lit "filename", JObj [ (lit "toString", JNum 1) ]);
    (lit "additions", JNum 1);
    (lit "deletions", JNum 0);
    (lit "status", JStr (lit "added")) ].

(** Rounding a quotient up. *)
Definition ceil_div (a b : Z) : Z := (a + b - 1) / b.

Definition starts_with (p s : jstring) : bool :=
  match strip_prefix p s with Some _ => true | None => false end.

(** [n] records to page through. *)
Definition numbered (n : nat) : list value :=
  map (fun i => JNum (Z.of_nat i)) (seq 0 n).

(* ===================================================================== *)
(** ** The bridge *)
(* ===================================================================== *)

Section Bridge.

(** The engine that runs the bridge. *)
Variable engine : Engine.

(** [process.env.GH_PERSONAL_ACCESS_TOKEN], read once at start. *)
Variable token : jstring.

(** The platform's URL parser: [None] when [new URL(s)] throws. *)
Variable new_URL : jstring -> option URL.

(** GitHub, seen from [fetch]: a request moves the world to a new state and
    is answered by a response, or the call is rejected. *)
Context {World : Type}.
Variable upstream : Request -> World -> (exn + Response) * World.

(** The state the handlers run in: the world, and the requests issued so
    far with their answers (a record kept for the proofs; the code does not
    read it). *)
Record Net := { world : World; log : list (Request * (exn + Response)) }.

Definition M (A : Type) : Type := Net -> outcome A * Net.

#[local] Instance M_ret : MRet M := fun _ a s => (Ok a, s).
#[local] Instance M_bind : MBind M := fun _ _ f c s =>
  match c s with
  | (Ok a, s') => f a s'
  | (Throw e, s') => (Throw e, s')
  | (Diverge, s') => (Diverge, s')
  end.

Definition throw {A} (e : exn) : M A := fun s => (Throw e, s).
Definition diverge {A} : M A := fun s => (Diverge, s).

(** A pure helper called from a handler. *)
Definition lift {A} (c : outcome A) : M A := fun s => (c, s).

(** The state after [req] has been answered by [r]. *)
Definition answered (s : Net) (req : Request) (r : exn + Response) (w : World)
  : Net :=
  {| world := w; log := log s ++ [(req, r)] |}.

(** [await fetch(url, { headers })] *)
Definition fetch (req : Request) : M Response := fun s =>
  let '(r, w) := upstream req (world s) in
  let s' := answered s req r w in
  match r with
  | inl e => (Throw e, s')
  | inr resp => (Ok resp, s')
  end.

(** The requests of the two fetch helpers. *)
Definition json_request (u : Address) : Request :=
  {| url := u;
     Authorization := lit "Bearer " ++ token;
     Accept := lit "application/vnd.github+json" |}.

Definition text_request (u : Address) (accept : jstring) : Request :=
  {| url := u; Authorization := lit "Bearer " ++ token; Accept := accept |}.

Definition InvalidPrUrl : exn :=
  Error (lit "URL inv" ++ a_acute ++
         lit "lida. Esperaba algo como https://github.com/OWNER/REPO/pull/123").

Definition parsePrUrl (pr_url : jstring) : outcome PullRequestReference :=
  match new_URL pr_url with
  | None => Throw TypeError
  | Some u =>
      let parts := segments (pathname u) in
      let pullIdx := findIndex (fun p => jstring_eqb p (lit "pull")) parts in
      if negb (jstring_eqb (hostname u) (lit "github.com"))
         || (pullIdx <? 2)
         || negb (ToBoolean (as_value (index parts (pullIdx + 1))))
      then Throw InvalidPrUrl
      else Ok {| owner := index parts 0;
                 repo := index parts 1;
                 number := index parts (pullIdx + 1) |}
  end.

(** The failure both fetch helpers throw on a response that is not ok. *)
Definition GitHubApiError (resp : Response) : exn :=
  Error (lit "GitHub API error " ++ Z_to_jstring (status resp) ++
         lit ": " ++ body_text resp).

Definition ghFetchJson (u : Address) : M value :=
  resp ← fetch (json_request u);
  if negb (ok resp) then throw (GitHubApiError resp)
  else match body_json resp with
       | Some v => mret v
       | None => throw SyntaxError
       end.

Definition ghFetchText (u : Address) (accept : jstring) : M jstring :=
  resp ← fetch (text_request u accept);
  if negb (ok resp) then throw (GitHubApiError resp)
  else mret (body_text resp).

(** The address of the list-files endpoint for one page. *)
Definition files_url (owner repo number : option jstring)
    (currentPerPage page : Z) : Address :=
  let u := address (lit "https://api.github.com/repos/" ++ as_text owner ++
                    lit "/" ++ as_text repo ++ lit "/pulls/" ++
                    as_text number ++ lit "/files") in
  let u := searchParams_set (lit "per_page") (Z_to_jstring currentPerPage) u in
  searchParams_set (lit "page") (Z_to_jstring page) u.

(** [all.push(...batch)]: the elements of [batch] are the arguments of one
    call, which the engine refuses when there are too many of them. *)
Definition push_spread (all batch : list value) : M (list value) :=
  if max_arguments engine <? Z.of_nat (length batch) then throw RangeError
  else mret (all ++ batch).

(** The [while] loop of [listPrFilesPaginated]; [fuel] bounds the number of
    iterations ([files_loop_terminates] shows that [max_files] are enough). *)
Fixpoint files_loop (fuel : nat) (owner repo number : option jstring)
    (max_files perPage page : Z) (all : list value) : M (list value) :=
  if Z.of_nat (length all) <? max_files then
    match fuel with
    | O => diverge
    | S fuel =>
        let remaining := max_files - Z.of_nat (length all) in
        let currentPerPage := Z.min perPage remaining in
        batch ← ghFetchJson (files_url owner repo number currentPerPage page);
        match batch with
        | JArr items =>
            if Z.of_nat (length items) =? 0 then mret all
            else
              all ← push_spread all items;
              if Z.of_nat (length items) <? currentPerPage then mret all
              else files_loop fuel owner repo number max_files perPage
                     (page + 1) all
        | _ => mret all
        end
    end
  else mret all.

Definition listPrFilesPaginated (owner repo number : option jstring)
    (max_files : Z)
  : M (list value) :=
  let perPage := Z.min 100 (Z.max 1 max_files) in
  all ← files_loop (Z.to_nat max_files) owner repo number max_files perPage 1 [];
  mret (slice0 all max_files).

(** *** Tool handlers

    An optional argument is [None] when the caller leaves it out; the
    defaults are those of the handlers' parameter lists. *)

(** [${v.k}] in a template literal: the property is read, then
    converted to a string. *)
Definition interpolated (v : value) (k : jstring) : outcome jstring :=
  x ← get v k; ToString engine x.

(** The callback of [repos.map] in [github_list_repos]. *)
Definition repo_line (r : value) : outcome jstring :=
  full_name ← interpolated r (lit "full_name");
  private ← get r (lit "private");
  Ok (full_name ++ lit " (" ++
      (if ToBoolean private then lit "private" else lit "public") ++
      lit ")").

Definition github_list_repos (visibility : option jstring) (per_page : option Z)
  : M ToolResult :=
  let visibility := default (lit "all") visibility in
  let per_page := default 100 per_page in
  let u := address (lit "https://api.github.com/user/repos") in
  let u := searchParams_set (lit "per_page") (Z_to_jstring per_page) u in
  let u := searchParams_set (lit "visibility") visibility u in
  repos ← ghFetchJson u;
  names ← lift (array_map repo_line repos);
  mret (text_result (join nl names)).

(** The callback of [prs.map] in [github_list_pull_requests]. *)
Definition pr_line (pr : value) : outcome jstring :=
  pr_number ← interpolated pr (lit "number");
  title ← interpolated pr (lit "title");
  user ← get pr (lit "user");
  login ← get_opt user (lit "login");
  login ← ToString engine login;
  html_url ← interpolated pr (lit "html_url");
  Ok (lit "#" ++ pr_number ++ lit " " ++ title ++
      lit " " ++ em_dash ++ lit " " ++ login ++
      lit " " ++ em_dash ++ lit " " ++ html_url).

(** The address of the list of pull requests of a repository. *)
Definition pulls_url (owner repo state : jstring) (per_page : Z) : Address :=
  let u := address (lit "https://api.github.com/repos/" ++ owner ++ lit "/" ++
                    repo ++ lit "/pulls") in
  let u := searchParams_set (lit "state") state u in
  searchParams_set (lit "per_page") (Z_to_jstring per_page) u.

Definition github_list_pull_requests (owner repo : jstring)
    (state : option jstring) (per_page : option Z) : M ToolResult :=
  let state := default (lit "open") state in
  let per_page := default 30 per_page in
  prs ← ghFetchJson (pulls_url owner repo state per_page);
  lines ← lift (array_map pr_line prs);
  let joined := join nl lines in
  mret (text_result
          (if ToBoolean (JStr joined) then joined else lit "(no PRs)")).

(** The address of a pull request on the API. *)
Definition pull_url (ref : PullRequestReference) : Address :=
  address (lit "https://api.github.com/repos/" ++ as_text (owner ref) ++
           lit "/" ++ as_text (repo ref) ++ lit "/pulls/" ++
           as_text (number ref)).

Definition diff_media_type : jstring := lit "application/vnd.github.v3.diff".

(** [max_diff_chars === 0 ? diff : diff.slice(0, max_diff_chars)] *)
Definition diff_out (diff : jstring) (max_diff_chars : Z) : jstring :=
  if max_diff_chars =? 0 then diff else slice0 diff max_diff_chars.

(** [`(truncado a ${max_diff_chars} chars de ${diff.length})`] followed by
    [tail], when the diff is longer than a positive cap; [otherwise] when
    not. *)
Definition diff_notice (diff : jstring) (max_diff_chars : Z)
    (tail otherwise : jstring) : jstring :=
  if (0 <? max_diff_chars) && (max_diff_chars <? Z.of_nat (length diff))
  then lit "(truncado a " ++ Z_to_jstring max_diff_chars ++ lit " chars de " ++
       Z_to_jstring (Z.of_nat (length diff)) ++ lit ")" ++ tail
  else otherwise.

Definition github_get_pull_request_diff (pr_url : jstring)
    (max_diff_chars : option Z) : M ToolResult :=
  let max_diff_chars := default 40000 max_diff_chars in
  ref ← lift (parsePrUrl pr_url);
  diff ← ghFetchText (pull_url ref) diff_media_type;
  let out := diff_out diff max_diff_chars in
  mret (text_result
          (lit "PR Diff (unified) for " ++ pr_url ++ nl ++
           diff_notice diff max_diff_chars (nl ++ nl) (nl ++ nl) ++
           out)).

(** The callback of [files.map] in [github_summarize_pull_request]: the
    line [base], and the whole of it. *)
Definition file_base (f : value) : outcome jstring :=
  filename ← interpolated f (lit "filename");
  additions ← interpolated f (lit "additions");
  deletions ← interpolated f (lit "deletions");
  f_status ← interpolated f (lit "status");
  Ok (lit "- " ++ filename ++ lit " (+" ++ additions ++
      lit "/-" ++ deletions ++ lit ") [" ++ f_status ++ lit "]").

Definition fileLine (include_patches : bool) (max_patch_chars : Z) (f : value)
  : outcome jstring :=
  base ← file_base f;
  if negb include_patches then Ok base
  else
    f_patch ← get f (lit "patch");
    match (if ToBoolean f_patch then f_patch else JStr []) with
    | JStr s =>
        let patch := slice0 s max_patch_chars in
        if ToBoolean (JStr patch)
        then Ok (base ++ nl ++ lit "  patch:" ++ nl ++
                 replace_newlines (nl ++ lit "  ") patch)
        else Ok base
    | _ =>
        (* a truthy value that is not a string: it has no [slice], or (an
           array) its slice has no [replace] *)
        Throw TypeError
    end.

(** The sentence the summary material starts with. *)
Definition summary_instructions : jstring :=
  lit "Us" ++ a_acute ++
  lit " el siguiente material para generar un resumen. " ++
  lit "Inclu" ++ i_acute ++
  lit ": objetivo, cambios principales, archivos tocados, impacto, riesgos, checklist de revisi" ++
  o_acute ++ lit "n, y sugerencias de test." ++ nl ++ nl.

Definition yes_no (v : value) : jstring :=
  if ToBoolean v then lit "yes" else lit "no".

(** The array of lines joined into [text]: its elements are made in
    order, and [join] converts the one that is not a string yet, the
    body. *)
Definition summary_text (pr : value) (max_files : Z) (fileLines : list jstring)
  : outcome jstring :=
  html_url ← interpolated pr (lit "html_url");
  title ← interpolated pr (lit "title");
  user ← get pr (lit "user");
  login ← get_opt user (lit "login");
  login ← ToString engine login;
  pr_state ← interpolated pr (lit "state");
  draft ← get pr (lit "draft");
  merged ← get pr (lit "merged");
  base ← get pr (lit "base");
  base_ref ← get_opt base (lit "ref");
  base_ref ← ToString engine base_ref;
  head ← get pr (lit "head");
  head_ref ← get_opt head (lit "ref");
  head_ref ← ToString engine head_ref;
  commits ← interpolated pr (lit "commits");
  changed_files ← interpolated pr (lit "changed_files");
  additions ← interpolated pr (lit "additions");
  deletions ← interpolated pr (lit "deletions");
  body ← get pr (lit "body");
  body ← (if ToBoolean body then ToString engine body else Ok (lit "(empty)"));
  Ok (join nl
        [ lit "PR: " ++ html_url;
          lit "Title: " ++ title;
          lit "Author: " ++ login;
          lit "State: " ++ pr_state ++ lit " | Draft: " ++
            yes_no draft ++ lit " | Merged: " ++ yes_no merged;
          lit "Base: " ++ base_ref ++ lit " <- Head: " ++ head_ref;
          lit "Commits: " ++ commits ++ lit " | Files changed: " ++
            changed_files ++ lit " | Additions: " ++
            additions ++ lit " | Deletions: " ++ deletions;
          [];
          lit "Description (body):";
          body;
          [];
          lit "Changed files (up to " ++ Z_to_jstring max_files ++ lit "):";
          join (nl ++ nl) fileLines ]).

(** [diffBlock] once the diff has been fetched. *)
Definition diffBlock_of (diff : jstring) (max_diff_chars : Z) : jstring :=
  nl ++ nl ++ lit "Unified diff (global):" ++ nl ++
  diff_notice diff max_diff_chars nl [] ++
  diff_out diff max_diff_chars.

(** The optional block with the whole diff. *)
Definition fetch_diffBlock (ref : PullRequestReference) (include_diff : bool)
    (max_diff_chars : Z) : M jstring :=
  if include_diff
  then diff ← ghFetchText (pull_url ref) diff_media_type;
       mret (diffBlock_of diff max_diff_chars)
  else mret [].

Definition github_summarize_pull_request (pr_url : jstring)
    (include_patches : option bool) (max_files max_patch_chars : option Z)
    (include_diff : option bool) (max_diff_chars : option Z) : M ToolResult :=
  let include_patches := default true include_patches in
  let max_files := default 50 max_files in
  let max_patch_chars := default 2000 max_patch_chars in
  let include_diff := default false include_diff in
  let max_diff_chars := default 40000 max_diff_chars in
  ref ← lift (parsePrUrl pr_url);
  pr ← ghFetchJson (pull_url ref);
  files ← listPrFilesPaginated (owner ref) (repo ref) (number ref) max_files;
  fileLines ← lift (map_throwing (fileLine include_patches max_patch_chars) files);
  diffBlock ← fetch_diffBlock ref include_diff max_diff_chars;
  text ← lift (summary_text pr max_files fileLines);
  mret (text_result (summary_instructions ++ text ++ diffBlock)).

(** The tools registered on the server, each with its arguments, and the
    dispatch to its handler. *)
Inductive ToolCall :=
| ListRepos (visibility : option jstring) (per_page : option Z)
| ListPullRequests (owner repo : jstring) (state : option jstring)
    (per_page : option Z)
| GetPullRequestDiff (pr_url : jstring) (max_diff_chars : option Z)
| SummarizePullRequest (pr_url : jstring) (include_patches : option bool)
    (max_files max_patch_chars : option Z) (include_diff : option bool)
    (max_diff_chars : option Z).

Definition handle (call : ToolCall) : M ToolResult :=
  match call with
  | ListRepos visibility per_page => github_list_repos visibility per_page
  | ListPullRequests owner repo state per_page =>
      github_list_pull_requests owner repo state per_page
  | GetPullRequestDiff pr_url max_diff_chars =>
      github_get_pull_request_diff pr_url max_diff_chars
  | SummarizePullRequest pr_url include_patches max_files max_patch_chars
      include_diff max_diff_chars =>
      github_summarize_pull_request pr_url include_patches max_files
        max_patch_chars include_diff max_diff_chars
  end.

(** A handler started with nothing yet requested. *)
Definition run {A} (c : M A) (w : World) : outcome A * Net :=
  c {| world := w; log := [] |}.

(** *** Predicates of the proofs *)

(** Every response recorded so far was a success. *)
Definition clean (l : list (Request * (exn + Response))) : Prop :=
  forall req resp, In (req, inr resp) l -> ok resp = true.

(** [c] does not survive a response that is not ok: if one is recorded
    when [c] has run, [c] has thrown the error made from it. *)
Definition aborts_on_rejection {A} (c : M A) : Prop :=
  forall s r s', c s = (r, s') -> clean (log s) ->
    forall req resp, In (req, inr resp) (log s') -> ok resp = false ->
      r = Throw (GitHubApiError resp).

(** [c] ends: it returns or throws, in every state. *)
Definition returns {A} (c : M A) : Prop := forall s, fst (c s) <> Diverge.

(** The records a recorded answer carries: the elements of its JSON
    array, none when it is not one. *)
Definition records_of (e : Request * (exn + Response)) : list value :=
  match snd e with
  | inr resp =>
      match body_json resp with
      | Some (JArr items) => items
      | _ => []
      end
  | inl _ => []
  end.

(** A request as the two fetch helpers make them, for the GitHub API. *)
Definition to_github_api (req : Request) : Prop :=
  Authorization req = lit "Bearer " ++ token /\
  (Accept req = lit "application/vnd.github+json" \/
   Accept req = lit "application/vnd.github.v3.diff") /\
  starts_with (lit "https://api.github.com/") (resource (url req)) = true.

(** [c] issues at most [n] requests, each of them satisfying [Q]. *)
Definition issues {A} (Q : Request -> Prop) (n : nat) (c : M A) : Prop :=
  forall s r s', c s = (r, s') ->
    exists new, log s' = log s ++ new /\
                Forall (fun e => Q (fst e)) new /\
                (length new <= n)%nat.

(** The requests a tool invocation may issue at most: one, or for the
    summary the metadata, the pages of files and the diff. *)
Definition request_budget (call : ToolCall) : nat :=
  match call with
  | SummarizePullRequest _ _ max_files _ _ _ =>
      let max_files := default 50 max_files in
      2 + Z.to_nat (ceil_div max_files (Z.min 100 (Z.max 1 max_files)))
  | _ => 1
  end.

(** What went wrong with a recorded request, if anything: the call was
    rejected, the response was not ok, or a JSON body was asked for and the
    body is not JSON. *)
Definition failure_of (entry : Request * (exn + Response)) : option exn :=
  match snd entry with
  | inl e => Some e
  | inr resp =>
      if negb (ok resp) then Some (GitHubApiError resp)
      else if jstring_eqb (Accept (fst entry)) (lit "application/vnd.github+json")
           then match body_json resp with
                | None => Some SyntaxError
                | Some _ => None
                end
           else None
  end.

(** No request recorded so far went wrong. *)
Definition sound_log (l : list (Request * (exn + Response))) : Prop :=
  forall entry, In entry l -> failure_of entry = None.

(** [c] ends with the failure of the request that went wrong, if one
    did, and that request is the last one. *)
Definition fails_with_the_failure {A} (c : M A) : Prop :=
  forall s r s', c s = (r, s') -> sound_log (log s) ->
    forall entry e, In entry (log s') -> failure_of entry = Some e ->
      r = Throw e /\ exists before, log s' = before ++ [entry].



(** The number of line breaks of a text. *)
Definition line_breaks (s : jstring) : nat :=
  length (List.filter (fun c => N.eqb c 10) s).

(** Whether the call asks for the diff: the diff tool always does, the
    summary when [include_diff] is given as true. *)
Definition wants_diff (call : ToolCall) : bool :=
  match call with
  | GetPullRequestDiff _ _ => true
  | SummarizePullRequest _ _ _ _ include_diff _ => default false include_diff
  | _ => false
  end.

(* ===================================================================== *)
(** ** Properties *)
(* ===================================================================== *)

(** *** Strings and numerals *)

Lemma jstring_eqb_eq (a b : jstring) : jstring_eqb a b = true <-> a = b.
Proof.
  revert b; induction a as [|x a IH]; intros [|y b]; simpl; try easy.
  rewrite andb_true_iff, N.eqb_eq, IH.
  split; [intros [-> ->]; reflexivity | intros [= -> ->]; auto].
Qed.

Lemma jstring_eqb_refl (a : jstring) : jstring_eqb a a = true.
Proof. now apply jstring_eqb_eq. Qed.

Lemma to_string_lit (s : string) : to_string (lit s) = s.
Proof.
  unfold to_string, lit.
  rewrite map_map, (map_ext _ (fun a => a)), map_id.
  - apply string_of_list_ascii_of_string.
  - intros a; apply ascii_N_embedding.
Qed.

Lemma jstring_to_Z_to_jstring (n : Z) : jstring_to_Z (Z_to_jstring n) = Some n.
Proof.
  unfold jstring_to_Z, Z_to_jstring.
  rewrite to_string_lit, NilEmpty.isi; simpl.
  now rewrite DecimalZ.of_to.
Qed.

(** *** Conversion to a string *)

(** Induction on a value, through the elements of arrays and the
    properties of objects. *)
Lemma value_nested_ind (P : value -> Prop) :
  P JUndefined -> P JNull -> (forall b, P (JBool b)) ->
  (forall n, P (JNum n)) -> (forall s, P (JStr s)) ->
  (forall items, Forall P items -> P (JArr items)) ->
  (forall fields, Forall (fun p => P (snd p)) fields -> P (JObj fields)) ->
  forall v, P v.
Proof.
  intros Hu Hn Hb Hz Hs Ha Ho.
  refine (fix IH (v : value) : P v :=
            match v with
            | JUndefined => Hu
            | JNull => Hn
            | JBool b => Hb b
            | JNum n => Hz n
            | JStr s => Hs s
            | JArr items =>
                Ha items
                  ((fix all (l : list value) : Forall P l :=
                      match l with
                      | [] => @List.Forall_nil _ _
                      | x :: l => @List.Forall_cons _ _ x l (IH x) (all l)
                      end) items)
            | JObj fields =>
                Ho fields
                  ((fix all (l : list (jstring * value))
                      : Forall (fun p => P (snd p)) l :=
                      match l with
                      | [] => @List.Forall_nil _ _
                      | p :: l =>
                          @List.Forall_cons _ (fun p => P (snd p)) p l
                            (IH (snd p)) (all l)
                      end) fields)
            end).
Qed.

Lemma map_throwing_returns {A B} (f : A -> outcome B) (l : list A) :
  Forall (fun a => f a <> Diverge) l -> map_throwing f l <> Diverge.
Proof.
  induction 1 as [|x l Hx _ IH]; [discriminate|].
  cbn [map_throwing]. destruct (f x); try easy. cbn [mbind outcome_bind].
  destruct (map_throwing f l); easy.
Qed.

Lemma map_throwing_throws {A B} (P : exn -> Prop) (f : A -> outcome B) l :
  Forall (fun a => forall e, f a = Throw e -> P e) l ->
  forall e, map_throwing f l = Throw e -> P e.
Proof.
  induction 1 as [|x l Hx _ IH]; [discriminate|].
  cbn [map_throwing]. intros e.
  destruct (f x) as [y|e0|] eqn:Ex; cbn [mbind outcome_bind];
    [|intros [= <-]; now apply Hx|discriminate].
  destruct (map_throwing f l) as [ys|e1|]; cbn [mbind outcome_bind];
    [discriminate|intros [= <-]; now apply IH|discriminate].
Qed.


(** A conversion ends, and what it throws is a [TypeError]. *)
Lemma ToString_returns v : ToString engine v <> Diverge.
Proof.
  induction v as [| | [|] | | |items IH|fields _] using value_nested_ind;
    cbn [ToString]; try discriminate.
  - assert (H : map_throwing (fun x => match x with
                                       | JUndefined | JNull => Ok []
                                       | _ => ToString engine x
                                       end) items <> Diverge).
    { apply map_throwing_returns. eapply Forall_impl; [exact IH|].
      intros [| | | | | |]; cbn; auto; discriminate. }
    destruct (map_throwing _ items); easy.
  - destruct (has_own _ fields); discriminate.
Qed.

Lemma ToString_throws v e : ToString engine v = Throw e -> e = TypeError.
Proof.
  revert e.
  induction v as [| | [|] | | |items IH|fields _] using value_nested_ind;
    intros e; cbn [ToString]; try discriminate.
  - destruct (map_throwing _ items) as [texts|e0|] eqn:E;
      cbn [mbind outcome_bind]; try discriminate.
    intros [= <-]. revert e0 E.
    apply (map_throwing_throws (fun e => e = TypeError)).
    eapply Forall_impl; [exact IH|].
    intros [| | | | | |]; cbn; auto; discriminate.
  - destruct (has_own _ fields); [now intros [= <-]|discriminate].
Qed.





(** A string or [undefined] is printed as it is. *)
Lemma ToString_as_value x : ToString engine (as_value x) = Ok (as_text x).
Proof. now destruct x. Qed.

(** A safe integer read from JSON is printed as its decimal numeral. *)
Lemma ToString_safe_integer n :
  Z.abs n < 2 ^ 53 -> ToString engine (JNum n) = Ok (Z_to_jstring n).
Proof.
  intros H. cbn [ToString]. unfold Number_toString.
  destruct (Z.ltb_spec (Z.abs n) (2 ^ 53)); [reflexivity|lia].
Qed.

(** *** Pure helpers end, and throw nothing but a [TypeError] *)

Lemma outcome_bind_returns {A B} (c : outcome A) (f : A -> outcome B) :
  c <> Diverge -> (forall a, f a <> Diverge) -> (c ≫= f) <> Diverge.
Proof. destruct c; cbn; auto; discriminate. Qed.

Lemma outcome_bind_throws {A B} (P : exn -> Prop) (c : outcome A)
    (f : A -> outcome B) :
  (forall e, c = Throw e -> P e) ->
  (forall a e, f a = Throw e -> P e) ->
  forall e, (c ≫= f) = Throw e -> P e.
Proof.
  destruct c as [a|e0|]; intros Hc Hf e' H; cbn [mbind outcome_bind] in H.
  - eauto.
  - injection H as <-. now apply Hc.
  - discriminate.
Qed.

Lemma get_returns v k : get v k <> Diverge.
Proof. destruct v; discriminate. Qed.

Lemma get_opt_returns v k : get_opt v k <> Diverge.
Proof. destruct v; discriminate. Qed.

Lemma get_throws v k e : get v k = Throw e -> e = TypeError.
Proof. destruct v; cbn; congruence. Qed.

Lemma get_opt_throws v k e : get_opt v k = Throw e -> e = TypeError.
Proof. destruct v; cbn; congruence. Qed.

Lemma map_throwing_ends {A B} (f : A -> outcome B) (l : list A) :
  (forall a, f a <> Diverge) -> map_throwing f l <> Diverge.
Proof. intros Hf. apply map_throwing_returns, Forall_forall. auto. Qed.


Lemma array_map_returns {B} (f : value -> outcome B) (v : value) :
  (forall a, f a <> Diverge) -> array_map f v <> Diverge.
Proof.
  intros Hf. destruct v; try discriminate. now apply map_throwing_ends.
Qed.


Ltac pure_returns :=
  repeat first
    [ apply outcome_bind_returns; [|intros ?]
    | apply get_returns
    | apply get_opt_returns
    | apply ToString_returns
    | discriminate ].

Ltac only_TypeError :=
  repeat first
    [ apply (outcome_bind_throws (fun e => e = TypeError)); [|intros ?]
    | apply get_throws
    | apply get_opt_throws
    | apply ToString_throws
    | discriminate
    | match goal with
      | H : ToString _ _ = Throw _ |- _ => exact (ToString_throws _ _ H)
      end
    | intros ? ].

Lemma interpolated_returns v k : interpolated v k <> Diverge.
Proof. unfold interpolated. pure_returns. Qed.

Lemma interpolated_throws v k e : interpolated v k = Throw e -> e = TypeError.
Proof. revert e. unfold interpolated. only_TypeError. Qed.

Lemma repo_line_returns r : repo_line r <> Diverge.
Proof. unfold repo_line, interpolated. pure_returns. Qed.


Lemma pr_line_returns pr : pr_line pr <> Diverge.
Proof. unfold pr_line, interpolated. pure_returns. Qed.


Lemma file_base_returns f : file_base f <> Diverge.
Proof. unfold file_base, interpolated. pure_returns. Qed.

Lemma file_base_throws f e : file_base f = Throw e -> e = TypeError.
Proof. revert e. unfold file_base, interpolated. only_TypeError. Qed.

Lemma fileLine_returns include_patches max_patch_chars f :
  fileLine include_patches max_patch_chars f <> Diverge.
Proof.
  unfold fileLine. apply outcome_bind_returns; [apply file_base_returns|].
  intros base. destruct (negb include_patches); pure_returns.
  destruct (if ToBoolean _ then _ else _); try discriminate.
  destruct (ToBoolean _); discriminate.
Qed.

Lemma fileLine_throws include_patches max_patch_chars f e :
  fileLine include_patches max_patch_chars f = Throw e -> e = TypeError.
Proof.
  revert e. unfold fileLine.
  apply (outcome_bind_throws (fun e => e = TypeError));
    [intros e; apply file_base_throws|].
  intros base. destruct (negb include_patches); only_TypeError.
  match goal with
  | H : match ?v with _ => _ end = Throw _ |- _ =>
      destruct v; try (now injection H as <-);
      destruct (ToBoolean _); discriminate
  end.
Qed.

Lemma summary_text_returns pr max_files fileLines :
  summary_text pr max_files fileLines <> Diverge.
Proof.
  unfold summary_text, interpolated. pure_returns.
  destruct (ToBoolean _); pure_returns.
Qed.


(** *** Running monadic code *)

Lemma run_bind {A B} (c : M A) (f : A -> M B) (s : Net) :
  (c ≫= f) s =
  match c s with
  | (Ok a, s') => f a s'
  | (Throw e, s') => (Throw e, s')
  | (Diverge, s') => (Diverge, s')
  end.
Proof. reflexivity. Qed.

Lemma run_lift {A} (c : outcome A) (s : Net) : lift c s = (c, s).
Proof. reflexivity. Qed.

Lemma ghFetchJson_ok u s resp w v :
  upstream (json_request u) (world s) = (inr resp, w) ->
  ok resp = true -> body_json resp = Some v ->
  ghFetchJson u s = (Ok v, answered s (json_request u) (inr resp) w).
Proof.
  intros Hup Hok Hv. unfold ghFetchJson. rewrite run_bind.
  unfold fetch. rewrite Hup, Hok, Hv. reflexivity.
Qed.

Lemma ghFetchJson_rejected u s resp w :
  upstream (json_request u) (world s) = (inr resp, w) ->
  ok resp = false ->
  ghFetchJson u s =
    (Throw (GitHubApiError resp), answered s (json_request u) (inr resp) w).
Proof.
  intros Hup Hok. unfold ghFetchJson. rewrite run_bind.
  unfold fetch. rewrite Hup, Hok. reflexivity.
Qed.

Lemma ghFetchText_ok u accept s resp w :
  upstream (text_request u accept) (world s) = (inr resp, w) ->
  ok resp = true ->
  ghFetchText u accept s =
    (Ok (body_text resp), answered s (text_request u accept) (inr resp) w).
Proof.
  intros Hup Hok. unfold ghFetchText. rewrite run_bind.
  unfold fetch. rewrite Hup, Hok. reflexivity.
Qed.

Lemma ghFetchText_rejected u accept s resp w :
  upstream (text_request u accept) (world s) = (inr resp, w) ->
  ok resp = false ->
  ghFetchText u accept s =
    (Throw (GitHubApiError resp),
     answered s (text_request u accept) (inr resp) w).
Proof.
  intros Hup Hok. unfold ghFetchText. rewrite run_bind.
  unfold fetch. rewrite Hup, Hok. reflexivity.
Qed.

Lemma ghFetchJson_returns u s : fst (ghFetchJson u s) <> Diverge.
Proof.
  unfold ghFetchJson. rewrite run_bind. unfold fetch.
  destruct (upstream _ _) as [[e|resp] w]; [discriminate|].
  destruct (negb (ok resp)); [discriminate|].
  destruct (body_json resp); discriminate.
Qed.

Lemma ghFetchText_returns u accept s : fst (ghFetchText u accept s) <> Diverge.
Proof.
  unfold ghFetchText. rewrite run_bind. unfold fetch.
  destruct (upstream _ _) as [[e|resp] w]; [discriminate|].
  destruct (negb (ok resp)); discriminate.
Qed.

(** *** The paginated collector *)

Lemma files_loop_eq fuel o r n max_files perPage page all :
  files_loop fuel o r n max_files perPage page all =
  if Z.of_nat (length all) <? max_files then
    match fuel with
    | O => diverge
    | S fuel =>
        let currentPerPage :=
          Z.min perPage (max_files - Z.of_nat (length all)) in
        batch ← ghFetchJson (files_url o r n currentPerPage page);
        match batch with
        | JArr items =>
            if Z.of_nat (length items) =? 0 then mret all
            else
              all ← push_spread all items;
              if Z.of_nat (length items) <? currentPerPage then mret all
              else files_loop fuel o r n max_files perPage (page + 1) all
        | _ => mret all
        end
    end
  else mret all.
Proof. destruct fuel; reflexivity. Qed.

(** The two ways [all.push(...batch)] ends. *)
Lemma push_spread_fits all batch s :
  Z.of_nat (length batch) <= max_arguments engine ->
  push_spread all batch s = (Ok (all ++ batch), s).
Proof.
  intros H. unfold push_spread.
  destruct (Z.ltb_spec (max_arguments engine) (Z.of_nat (length batch)));
    [lia|reflexivity].
Qed.

Lemma push_spread_inv all batch s r s' :
  push_spread all batch s = (r, s') ->
  s' = s /\
  (r = Ok (all ++ batch) /\ Z.of_nat (length batch) <= max_arguments engine \/
   r = Throw RangeError /\ max_arguments engine < Z.of_nat (length batch)).
Proof.
  unfold push_spread.
  destruct (Z.ltb_spec (max_arguments engine) (Z.of_nat (length batch)));
    intros [= <- <-]; auto.
Qed.

(** A page as long as asked for, or shorter, is pushed: no more than a
    hundred records are asked for at a time. *)
Lemma push_spread_page all batch s k :
  Z.of_nat (length batch) <= k -> k <= 100 ->
  push_spread all batch s = (Ok (all ++ batch), s).
Proof.
  intros Hk H100. apply push_spread_fits.
  pose proof (max_arguments_hundred engine). lia.
Qed.

Lemma slice0_all {A} (l : list A) (e : Z) :
  Z.of_nat (length l) <= e -> slice0 l e = l.
Proof.
  intros H. unfold slice0.
  destruct (Z.ltb_spec e 0); [lia|].
  apply take_ge. lia.
Qed.

Lemma slice0_length {A} (l : list A) (e : Z) :
  0 <= e -> Z.of_nat (length (slice0 l e)) <= e.
Proof.
  intros H. unfold slice0.
  destruct (Z.ltb_spec e 0); [lia|].
  rewrite length_take. lia.
Qed.

(** The loop finishes within the iterations [listPrFilesPaginated] grants
    it: every iteration that goes on has added a record. *)
Lemma files_loop_terminates fuel o r n max_files perPage page all s :
  (Z.to_nat (max_files - Z.of_nat (length all)) <= fuel)%nat ->
  fst (files_loop fuel o r n max_files perPage page all s) <> Diverge.
Proof.
  revert page all s.
  induction fuel as [|fuel IH]; intros page all s Hfuel;
    rewrite files_loop_eq;
    destruct (Z.ltb_spec (Z.of_nat (length all)) max_files) as [Hlt|Hge];
    try discriminate; try lia.
  cbv zeta. rewrite run_bind.
  pose proof (ghFetchJson_returns
                (files_url o r n
                   (Z.min perPage (max_files - Z.of_nat (length all))) page) s)
    as Hret.
  destruct (ghFetchJson _ s) as [[batch| |] s1]; try discriminate; try easy.
  destruct batch as [| | | | |items|]; try discriminate.
  destruct (Z.eqb_spec (Z.of_nat (length items)) 0); [discriminate|].
  rewrite run_bind.
  destruct (push_spread all items s1) as [r2 s2] eqn:Epush.
  apply push_spread_inv in Epush as [-> [[-> _]|[-> _]]]; [|discriminate].
  destruct (Z.ltb_spec (Z.of_nat (length items))
              (Z.min perPage (max_files - Z.of_nat (length all))));
    [discriminate|].
  apply IH. rewrite length_app. lia.
Qed.

Lemma listPrFilesPaginated_terminates o r n max_files s :
  fst (listPrFilesPaginated o r n max_files s) <> Diverge.
Proof.
  unfold listPrFilesPaginated. cbv zeta. rewrite run_bind.
  pose proof (files_loop_terminates (Z.to_nat max_files) o r n max_files
                (Z.min 100 (Z.max 1 max_files)) 1 [] s) as H.
  destruct (files_loop _ _ _ _ _ _ _ _ s) as [[all| |] s1]; try discriminate.
  apply H. simpl. lia.
Qed.

(** Whatever the upstream answers, no more than [max_files] records are
    returned. *)
Lemma listPrFilesPaginated_bounded o r n max_files s files s' :
  0 <= max_files ->
  listPrFilesPaginated o r n max_files s = (Ok files, s') ->
  Z.of_nat (length files) <= max_files.
Proof.
  intros Hpos. unfold listPrFilesPaginated. cbv zeta. rewrite run_bind.
  destruct (files_loop _ _ _ _ _ _ _ _ s) as [[all| |] s1]; try discriminate.
  intros [= <- <-]. now apply slice0_length.
Qed.

(** C6. Called with [max_files = 0], [listPrFilesPaginated] does not enter
    its loop: it returns the empty sequence and has issued no request (the
    world and the record of requests are as before). *)
Theorem listPrFilesPaginated_zero o r n (s : Net) :
  listPrFilesPaginated o r n 0 s = (Ok [], s).
Proof. reflexivity. Qed.

(** C5. When the first page the upstream returns is not empty but shorter
    than the page size requested for it, [listPrFilesPaginated] returns the
    records of that page, having issued that one request only. *)
Theorem listPrFilesPaginated_short_first_page
    o r n max_files (w w' : World) resp batch :
  let currentPerPage := Z.min (Z.min 100 (Z.max 1 max_files)) max_files in
  let req := json_request (files_url o r n currentPerPage 1) in
  upstream req w = (inr resp, w') ->
  ok resp = true ->
  body_json resp = Some (JArr batch) ->
  batch <> [] ->
  Z.of_nat (length batch) < currentPerPage ->
  run (listPrFilesPaginated o r n max_files) w =
    (Ok batch, {| world := w'; log := [(req, inr resp)] |}).
Proof.
  intros cpp req Hup Hok Hbody Hne Hshort.
  assert (0 < length batch)%nat by (destruct batch; simpl; [easy|lia]).
  unfold run, listPrFilesPaginated. cbv zeta. rewrite run_bind.
  destruct (Z.to_nat max_files) eqn:Efuel; [lia|].
  rewrite files_loop_eq.
  change (Z.of_nat (length (@nil value))) with 0.
  destruct (Z.ltb_spec 0 max_files); [|lia].
  cbv zeta. rewrite run_bind. rewrite Z.sub_0_r.
  erewrite ghFetchJson_ok by eauto.
  assert (E0 : (Z.of_nat (length batch) =? 0) = false)
    by (apply Z.eqb_neq; lia).
  assert (E1 : (Z.of_nat (length batch) <? cpp) = true)
    by (apply Z.ltb_lt; lia).
  fold cpp. cbv beta iota. rewrite E0.
  rewrite run_bind, (push_spread_page _ _ _ cpp) by lia.
  rewrite E1.
  unfold mret, M_ret, answered. simpl.
  f_equal. f_equal. apply slice0_all. lia.
Qed.

(** *** Every tool invocation comes to an end *)

Lemma parsePrUrl_returns pr_url : parsePrUrl pr_url <> Diverge.
Proof.
  unfold parsePrUrl. destruct (new_URL pr_url); [|discriminate].
  cbv zeta. destruct (_ || _); discriminate.
Qed.

Lemma returns_ret {A} (a : A) : returns (mret a).
Proof. intros s. discriminate. Qed.

Lemma returns_lift {A} (c : outcome A) : c <> Diverge -> returns (lift c).
Proof. intros Hc s. exact Hc. Qed.

Lemma returns_bind {A B} (c : M A) (f : A -> M B) :
  returns c -> (forall a, returns (f a)) -> returns (c ≫= f).
Proof.
  intros Hc Hf s. rewrite run_bind. specialize (Hc s).
  destruct (c s) as [[a|e|] s1]; [apply Hf|discriminate|easy].
Qed.

Create HintDb returns.
#[local] Hint Resolve returns_ret returns_lift repo_line_returns pr_line_returns
  fileLine_returns summary_text_returns parsePrUrl_returns
  map_throwing_ends array_map_returns : returns.

(** Whatever the upstream answers, a tool invocation returns its result
    or throws: the one loop it may run is bounded by [max_files]. *)
Lemma handle_returns call : returns (handle call).
Proof.
  assert (Hjson : forall u, returns (ghFetchJson u))
    by (intros u s; apply ghFetchJson_returns).
  assert (Htext : forall u a, returns (ghFetchText u a))
    by (intros u a s; apply ghFetchText_returns).
  assert (Hfiles : forall o r n m, returns (listPrFilesPaginated o r n m))
    by (intros o r n m s; apply listPrFilesPaginated_terminates).
  destruct call; cbn [handle];
    [ unfold github_list_repos
    | unfold github_list_pull_requests
    | unfold github_get_pull_request_diff
    | unfold github_summarize_pull_request ];
    cbv zeta;
    repeat (apply returns_bind; [auto with returns|intros ?]);
    auto with returns.
  unfold fetch_diffBlock.
  destruct (default false include_diff); [|auto with returns].
  apply returns_bind; auto with returns.
Qed.

(** *** Failures of the upstream *)

Lemma clean_nil : clean [].
Proof. intros req resp []. Qed.

Lemma aborts_quiet {A} (c : M A) :
  (forall s, log (snd (c s)) = log s) -> aborts_on_rejection c.
Proof.
  intros Hquiet s r s' Hrun Hclean req resp Hin Hbad.
  specialize (Hquiet s). rewrite Hrun in Hquiet. cbn in Hquiet.
  rewrite Hquiet in Hin. apply Hclean in Hin. congruence.
Qed.

Lemma aborts_ret {A} (a : A) : aborts_on_rejection (mret a).
Proof. now apply aborts_quiet. Qed.

Lemma aborts_lift {A} (c : outcome A) : aborts_on_rejection (lift c).
Proof. now apply aborts_quiet. Qed.

Lemma aborts_bind {A B} (c : M A) (f : A -> M B) :
  aborts_on_rejection c -> (forall a, aborts_on_rejection (f a)) ->
  aborts_on_rejection (c ≫= f).
Proof.
  intros Hc Hf s r s' Hrun Hclean req resp Hin Hbad.
  rewrite run_bind in Hrun.
  destruct (c s) as [[a|e|] s1] eqn:Ec.
  - eapply (Hf a); eauto.
    intros req' resp' Hin'.
    destruct (ok resp') eqn:Hok'; trivial.
    now specialize (Hc s _ _ Ec Hclean _ _ Hin' Hok').
  - injection Hrun as <- <-.
    specialize (Hc s _ _ Ec Hclean _ _ Hin Hbad). now injection Hc as ->.
  - injection Hrun as <- <-.
    now specialize (Hc s _ _ Ec Hclean _ _ Hin Hbad).
Qed.

Lemma aborts_ghFetchJson u : aborts_on_rejection (ghFetchJson u).
Proof.
  intros s r s' Hrun Hclean req resp Hin Hbad.
  unfold ghFetchJson in Hrun. rewrite run_bind in Hrun. unfold fetch in Hrun.
  destruct (upstream _ _) as [[e|resp0] w].
  - injection Hrun as <- <-. cbn in Hin. apply in_app_or in Hin.
    destruct Hin as [Hin|[Hin|[]]]; [|discriminate].
    apply Hclean in Hin. congruence.
  - assert (Hlog : log s' = log s ++ [(json_request u, inr resp0)]).
    { destruct (ok resp0); cbn in Hrun;
        [destruct (body_json resp0)|]; now injection Hrun as <- <-. }
    rewrite Hlog in Hin. apply in_app_or in Hin.
    destruct Hin as [Hin|[Hin|[]]].
    + apply Hclean in Hin. congruence.
    + injection Hin as <- <-. rewrite Hbad in Hrun. cbn in Hrun.
      now injection Hrun as <- <-.
Qed.

Lemma aborts_ghFetchText u accept : aborts_on_rejection (ghFetchText u accept).
Proof.
  intros s r s' Hrun Hclean req resp Hin Hbad.
  unfold ghFetchText in Hrun. rewrite run_bind in Hrun. unfold fetch in Hrun.
  destruct (upstream _ _) as [[e|resp0] w].
  - injection Hrun as <- <-. cbn in Hin. apply in_app_or in Hin.
    destruct Hin as [Hin|[Hin|[]]]; [|discriminate].
    apply Hclean in Hin. congruence.
  - assert (Hlog : log s' = log s ++ [(text_request u accept, inr resp0)]).
    { destruct (ok resp0); cbn in Hrun; now injection Hrun as <- <-. }
    rewrite Hlog in Hin. apply in_app_or in Hin.
    destruct Hin as [Hin|[Hin|[]]].
    + apply Hclean in Hin. congruence.
    + injection Hin as <- <-. rewrite Hbad in Hrun. cbn in Hrun.
      now injection Hrun as <- <-.
Qed.

Lemma aborts_push_spread all batch : aborts_on_rejection (push_spread all batch).
Proof.
  apply aborts_quiet. intros s. unfold push_spread.
  now destruct (_ <? _).
Qed.

Lemma aborts_files_loop fuel o r n max_files perPage page all :
  aborts_on_rejection (files_loop fuel o r n max_files perPage page all).
Proof.
  revert page all. induction fuel as [|fuel IH]; intros page all;
    rewrite files_loop_eq;
    destruct (Z.of_nat (length all) <? max_files);
    try apply aborts_ret; try (now apply aborts_quiet).
  cbv zeta. apply aborts_bind; [apply aborts_ghFetchJson|].
  intros [| | | | |items|]; try apply aborts_ret.
  destruct (Z.of_nat (length items) =? 0); [apply aborts_ret|].
  apply aborts_bind; [apply aborts_push_spread|]. intros all'.
  destruct (Z.of_nat (length items) <? _); [apply aborts_ret|apply IH].
Qed.

Lemma aborts_listPrFilesPaginated o r n max_files :
  aborts_on_rejection (listPrFilesPaginated o r n max_files).
Proof.
  apply aborts_bind; [apply aborts_files_loop|]. intros; apply aborts_ret.
Qed.

Create HintDb aborts.
#[local] Hint Resolve aborts_ret aborts_lift aborts_ghFetchJson
  aborts_ghFetchText aborts_listPrFilesPaginated : aborts.

Lemma aborts_handle call : aborts_on_rejection (handle call).
Proof.
  destruct call; cbn [handle];
    [ unfold github_list_repos
    | unfold github_list_pull_requests
    | unfold github_get_pull_request_diff
    | unfold github_summarize_pull_request ];
    cbv zeta;
    repeat (apply aborts_bind; [auto with aborts|intros ?]);
    auto with aborts.
  unfold fetch_diffBlock.
  destruct (default false include_diff); [|auto with aborts].
  apply aborts_bind; auto with aborts.
Qed.

(** C7. A response that is not ok makes [ghFetchJson] and [ghFetchText]
    throw an error whose message carries its status and its body, whatever
    the status; and a tool invocation during which the upstream gave such a
    response ends with that very error: it is not caught, and there is no
    result beside it. *)
Theorem upstream_failure_propagates :
  (forall u s resp w,
      upstream (json_request u) (world s) = (inr resp, w) ->
      ok resp = false ->
      ghFetchJson u s =
        (Throw (Error (lit "GitHub API error " ++ Z_to_jstring (status resp) ++
                       lit ": " ++ body_text resp)),
         answered s (json_request u) (inr resp) w)) /\
  (forall u accept s resp w,
      upstream (text_request u accept) (world s) = (inr resp, w) ->
      ok resp = false ->
      ghFetchText u accept s =
        (Throw (Error (lit "GitHub API error " ++ Z_to_jstring (status resp) ++
                       lit ": " ++ body_text resp)),
         answered s (text_request u accept) (inr resp) w)) /\
  (forall call w r net req resp,
      run (handle call) w = (r, net) ->
      In (req, inr resp) (log net) ->
      ok resp = false ->
      r = Throw (Error (lit "GitHub API error " ++ Z_to_jstring (status resp) ++
                        lit ": " ++ body_text resp))).
Proof.
  split; [|split].
  - intros. now apply ghFetchJson_rejected.
  - intros. now apply ghFetchText_rejected.
  - intros call w r net req resp Hrun Hin Hbad.
    eapply (aborts_handle call); eauto. apply clean_nil.
Qed.

(** *** The pull request address parser *)

Lemma findIndex_first {A} (p : A -> bool) (l : list A) (i : nat) (x : A) :
  l !! i = Some x -> p x = true ->
  (forall j y, (j < i)%nat -> l !! j = Some y -> p y = false) ->
  findIndex p l = Z.of_nat i.
Proof.
  intros Hi Hx Hbefore. unfold findIndex.
  destruct (list_find (fun x => p x = true) l) as [[k y]|] eqn:E.
  - apply list_find_Some in E as (Hk & Hy & Hmin).
    destruct (Nat.lt_trichotomy k i) as [Hlt|[->|Hgt]]; trivial.
    + rewrite (Hbefore k y Hlt Hk) in Hy. discriminate.
    + now destruct (Hmin i x Hi Hgt).
  - rewrite list_find_None, Forall_forall in E.
    destruct (E x); trivial. eapply list_elem_of_lookup_2; eauto.
Qed.

Lemma findIndex_bounds {A} (p : A -> bool) (l : list A) :
  -1 <= findIndex p l < Z.of_nat (length l).
Proof.
  unfold findIndex.
  destruct (list_find (fun x => p x = true) l) as [[k y]|] eqn:E; [|lia].
  apply list_find_Some in E as (Hk & _). apply lookup_lt_Some in Hk. lia.
Qed.

Lemma segments_nonempty (path p : jstring) (i : nat) :
  segments path !! i = Some p -> ToBoolean (JStr p) = true.
Proof.
  intros Hi. apply list_elem_of_lookup_2, list_elem_of_In in Hi.
  unfold segments in Hi. now apply filter_In in Hi.
Qed.

Lemma index_lookup (l : list jstring) (i : nat) (p : jstring) :
  l !! i = Some p -> index l (Z.of_nat i) = Some p.
Proof.
  intros Hi. unfold index.
  destruct (Z.ltb_spec (Z.of_nat i) 0); [lia|].
  now rewrite Nat2Z.id, Hi.
Qed.

(** X2. The three ways in which [parsePrUrl] refuses an address: another host,
    no [pull] segment from the third segment on before any other [pull],
    or nothing after the first [pull]. *)
Lemma parsePrUrl_rejects pr_url u :
  new_URL pr_url = Some u ->
  hostname u <> lit "github.com" \/
  findIndex (fun p => jstring_eqb p (lit "pull")) (segments (pathname u)) < 2 \/
  index (segments (pathname u))
    (findIndex (fun p => jstring_eqb p (lit "pull")) (segments (pathname u)) + 1)
    = None ->
  parsePrUrl pr_url = Throw InvalidPrUrl.
Proof.
  intros Hu Hcase. unfold parsePrUrl. rewrite Hu. cbv zeta.
  destruct Hcase as [Hhost|[Hidx|Hnum]].
  - destruct (jstring_eqb (hostname u) (lit "github.com")) eqn:E; trivial.
    now apply jstring_eqb_eq in E.
  - apply Z.ltb_lt in Hidx. rewrite Hidx. now rewrite orb_true_r.
  - rewrite Hnum. cbn [as_value ToBoolean negb]. now rewrite orb_true_r.
Qed.

(** On an address of host [github.com] whose first [pull] segment is at
    index 2 or later and has a segment after it, [parsePrUrl] succeeds: the
    owner and the repository are the first two segments of the path
    (whatever stands between them and [pull]), and the number is the
    segment right after that first [pull] (whatever follows it). *)
Lemma parsePrUrl_first_pull pr_url u (i : nat) (num : jstring) :
  new_URL pr_url = Some u ->
  hostname u = lit "github.com" ->
  segments (pathname u) !! i = Some (lit "pull") ->
  (forall j, (j < i)%nat -> segments (pathname u) !! j <> Some (lit "pull")) ->
  (2 <= i)%nat ->
  segments (pathname u) !! (i + 1)%nat = Some num ->
  exists o r,
    segments (pathname u) !! 0%nat = Some o /\
    segments (pathname u) !! 1%nat = Some r /\
    parsePrUrl pr_url =
      Ok {| owner := Some o; repo := Some r; number := Some num |}.
Proof.
  intros Hu Hhost Hpull Hfirst Hi Hnum.
  set (parts := segments (pathname u)) in *.
  assert (Hlen : (i < length parts)%nat) by (eapply lookup_lt_Some; eauto).
  destruct (lookup_lt_is_Some_2 parts 0) as [o Ho]; [lia|].
  destruct (lookup_lt_is_Some_2 parts 1) as [r Hr]; [lia|].
  exists o, r. split; [exact Ho|]. split; [exact Hr|].
  unfold parsePrUrl. rewrite Hu. cbv zeta. fold parts.
  rewrite (findIndex_first _ parts i (lit "pull")); trivial.
  - rewrite Hhost, jstring_eqb_refl. cbn [negb orb].
    destruct (Z.ltb_spec (Z.of_nat i) 2); [lia|]. cbn [orb].
    replace (Z.of_nat i + 1) with (Z.of_nat (i + 1)) by lia.
    rewrite (index_lookup _ _ _ Hnum). cbn [as_value].
    rewrite (segments_nonempty _ _ _ Hnum). cbn [negb].
    pose proof (index_lookup parts 0 o Ho) as H0.
    pose proof (index_lookup parts 1 r Hr) as H1.
    change (Z.of_nat 0) with 0 in H0. change (Z.of_nat 1) with 1 in H1.
    now rewrite H0, H1.
  - intros j y Hj Hy.
    destruct (jstring_eqb y (lit "pull")) eqn:E; trivial.
    apply jstring_eqb_eq in E. subst y. now destruct (Hfirst j Hj).
Qed.

Lemma split_segment (a b : jstring) :
  Forall (fun c => c <> 47%N) a ->
  split 47%N (a ++ 47%N :: b) = a :: split 47%N b.
Proof.
  induction a as [|c a IH]; intros Ha; [reflexivity|].
  inversion Ha as [|? ? Hc Ha']; subst. cbn [app split].
  destruct (N.eqb_spec c 47); [contradiction|]. now rewrite IH.
Qed.

Lemma split_last (a : jstring) :
  Forall (fun c => c <> 47%N) a -> split 47%N a = [a].
Proof.
  induction a as [|c a IH]; intros Ha; [reflexivity|].
  inversion Ha as [|? ? Hc Ha']; subst. cbn [split].
  destruct (N.eqb_spec c 47); [contradiction|]. now rewrite IH.
Qed.

(** X3. The addresses the parser is written for,
    [https://github.com/{owner}/{repo}/pull/{number}], are accepted, with
    their three parts, when neither the owner nor the repository is called
    [pull]. *)
Lemma parsePrUrl_canonical pr_url (O R N : jstring) :
  new_URL pr_url =
    Some {| hostname := lit "github.com";
            pathname := lit "/" ++ O ++ lit "/" ++ R ++ lit "/pull/" ++ N |} ->
  Forall (fun c => c <> 47%N) O -> Forall (fun c => c <> 47%N) R ->
  Forall (fun c => c <> 47%N) N ->
  O <> [] -> R <> [] -> N <> [] ->
  O <> lit "pull" -> R <> lit "pull" ->
  parsePrUrl pr_url = Ok {| owner := Some O; repo := Some R; number := Some N |}.
Proof.
  intros Hu HO HR HN HO0 HR0 HN0 HOp HRp.
  assert (Hseg : segments (lit "/" ++ O ++ lit "/" ++ R ++ lit "/pull/" ++ N)
                 = [O; R; lit "pull"; N]).
  { unfold segments.
    change (lit "/" ++ O ++ lit "/" ++ R ++ lit "/pull/" ++ N)
      with ([] ++ 47%N :: O ++ 47%N :: R ++ 47%N :: lit "pull" ++ 47%N :: N).
    rewrite !split_segment, split_last; trivial;
      try (repeat constructor; discriminate).
    destruct O, R, N; try contradiction. reflexivity. }
  unfold parsePrUrl. rewrite Hu. cbn [pathname hostname]. cbv zeta.
  rewrite Hseg.
  rewrite (findIndex_first _ _ 2 (lit "pull")); try reflexivity.
  - change (index [O; R; lit "pull"; N] (Z.of_nat 2 + 1)) with (Some N).
    destruct N; [contradiction|]. reflexivity.
  - intros [|[|j]] y Hj; try lia; intros [= <-];
      match goal with
      | |- jstring_eqb ?z _ = false =>
          destruct (jstring_eqb z (lit "pull")) eqn:E; trivial;
          apply jstring_eqb_eq in E; contradiction
      end.
Qed.

Lemma findIndex_found {A} (p : A -> bool) (l : list A) :
  0 <= findIndex p l ->
  exists (i : nat) (x : A),
    findIndex p l = Z.of_nat i /\ l !! i = Some x /\ p x = true /\
    forall j y, (j < i)%nat -> l !! j = Some y -> p y = false.
Proof.
  unfold findIndex.
  destruct (list_find (fun x => p x = true) l) as [[i x]|] eqn:E; [|lia].
  intros _. apply list_find_Some in E as (Hi & Hx & Hmin).
  exists i, x. repeat split; trivial.
  intros j y Hj Hy. destruct (p y) eqn:Hp; trivial.
  now destruct (Hmin j y Hy Hj).
Qed.

Lemma findIndex_at_most {A} (p : A -> bool) (l : list A) (i : nat) (x : A) :
  l !! i = Some x -> p x = true ->
  exists (j : nat) (y : A),
    (j <= i)%nat /\ findIndex p l = Z.of_nat j /\ l !! j = Some y /\
    p y = true /\
    forall k z, (k < j)%nat -> l !! k = Some z -> p z = false.
Proof.
  intros Hi Hx.
  destruct (findIndex_found p l) as (j & y & Hj & Hy & Hpy & Hfirst).
  - unfold findIndex.
    destruct (list_find (fun x => p x = true) l) as [[k z]|] eqn:E; [lia|].
    rewrite list_find_None, Forall_forall in E.
    destruct (E x); trivial. eapply list_elem_of_lookup_2; eauto.
  - exists j, y. repeat split; trivial.
    destruct (Nat.le_gt_cases j i) as [Hle|Hgt]; trivial.
    rewrite (Hfirst i x Hgt Hi) in Hx. discriminate.
Qed.

(** C9, the code on the addresses of the claim: host [github.com], a
    [pull] segment at an index [i >= 2], and a segment after it.  When the
    owner or the repository, the segments 0 and 1, is itself called [pull],
    that one is the first [pull] segment, and the address is refused:
    [https://github.com/acme/pull/pull/5] is.  In every other case the
    address is accepted as the claim says, with the first two segments as
    owner and repository and the segment after the first [pull] as
    number. *)
Theorem parsePrUrl_pull_at_owner_or_repo pr_url u (i : nat) (num : jstring) :
  new_URL pr_url = Some u ->
  hostname u = lit "github.com" ->
  (2 <= i)%nat ->
  segments (pathname u) !! i = Some (lit "pull") ->
  segments (pathname u) !! (i + 1)%nat = Some num ->
  (segments (pathname u) !! 0%nat = Some (lit "pull") \/
   segments (pathname u) !! 1%nat = Some (lit "pull") ->
   parsePrUrl pr_url = Throw InvalidPrUrl) /\
  (segments (pathname u) !! 0%nat <> Some (lit "pull") ->
   segments (pathname u) !! 1%nat <> Some (lit "pull") ->
   exists (o r : jstring) (j : nat) (n : jstring),
     segments (pathname u) !! 0%nat = Some o /\
     segments (pathname u) !! 1%nat = Some r /\
     (2 <= j <= i)%nat /\
     segments (pathname u) !! j = Some (lit "pull") /\
     (forall k, (k < j)%nat -> segments (pathname u) !! k <> Some (lit "pull")) /\
     segments (pathname u) !! (j + 1)%nat = Some n /\
     parsePrUrl pr_url =
       Ok {| owner := Some o; repo := Some r; number := Some n |}).
Proof.
  intros Hu Hhost Hi Hpull Hnum.
  set (parts := segments (pathname u)) in *.
  set (is_pull := fun p => jstring_eqb p (lit "pull")).
  assert (Hlen : (i + 1 < length parts)%nat) by (eapply lookup_lt_Some; eauto).
  split.
  - intros Hearly.
    assert (Hlow : exists k : nat,
               (k < 2)%nat /\ parts !! k = Some (lit "pull")).
    { destruct Hearly; [exists 0%nat|exists 1%nat]; split; trivial; lia. }
    destruct Hlow as (k & Hk & Hat).
    destruct (findIndex_at_most is_pull parts k (lit "pull") Hat eq_refl)
      as (j & y & Hj & Hidx & _).
    unfold parsePrUrl. rewrite Hu. cbv zeta. fold parts. fold is_pull.
    rewrite Hidx.
    destruct (Z.ltb_spec (Z.of_nat j) 2); [|lia].
    now rewrite orb_true_r.
  - intros H0 H1.
    destruct (findIndex_at_most is_pull parts i (lit "pull") Hpull eq_refl)
      as (j & y & Hj & Hidx & Hat & Hy & Hfirst).
    apply jstring_eqb_eq in Hy. subst y.
    assert (Hj2 : (2 <= j)%nat).
    { destruct j as [|[|j]]; [now destruct H0|now destruct H1|lia]. }
    destruct (lookup_lt_is_Some_2 parts (j + 1)) as [n Hn]; [lia|].
    assert (Hfirst' : forall k, (k < j)%nat -> parts !! k <> Some (lit "pull")).
    { intros k Hk Hkp. specialize (Hfirst k _ Hk Hkp). discriminate. }
    destruct (parsePrUrl_first_pull pr_url u j n Hu Hhost Hat Hfirst' Hj2 Hn)
      as (o & r & Ho & Hr & Hparse).
    exists o, r, j, n. repeat split; trivial; lia.
Qed.

(** C2, the code at the failing input.  A repository (or an owner) called
    [pull] is the first [pull] segment, at an index below 2: the address
    [https://github.com/acme/pull/pull/7], of the shape the parser is
    written for, is refused. *)
Theorem parsePrUrl_rejects_repo_named_pull pr_url :
  new_URL pr_url =
    Some {| hostname := lit "github.com";
            pathname := lit "/acme/pull/pull/7" |} ->
  parsePrUrl pr_url = Throw InvalidPrUrl.
Proof. intros Hu. unfold parsePrUrl. now rewrite Hu. Qed.

(** *** The tool handlers *)

(** C8. When the upstream answers the request of
    [github_list_pull_requests] with an empty list, the text of the tool's
    result is [(no PRs)]. *)
Theorem github_list_pull_requests_empty
    (owner repo : jstring) (state : option jstring) (per_page : option Z)
    (w w' : World) (resp : Response) :
  upstream (json_request (pulls_url owner repo (default (lit "open") state)
                            (default 30 per_page))) w = (inr resp, w') ->
  ok resp = true ->
  body_json resp = Some (JArr []) ->
  fst (run (github_list_pull_requests owner repo state per_page) w) =
    Ok {| content := [ {| type := lit "text"; text := lit "(no PRs)" |} ] |}.
Proof.
  intros Hup Hok Hbody.
  unfold run, github_list_pull_requests. cbv zeta. rewrite run_bind.
  erewrite ghFetchJson_ok by eauto. reflexivity.
Qed.

Lemma github_get_pull_request_diff_run pr_url max_diff_chars ref s resp w :
  parsePrUrl pr_url = Ok ref ->
  upstream (text_request (pull_url ref) diff_media_type) (world s)
    = (inr resp, w) ->
  ok resp = true ->
  github_get_pull_request_diff pr_url max_diff_chars s =
    (Ok (text_result
           (lit "PR Diff (unified) for " ++ pr_url ++ nl ++
            diff_notice (body_text resp) (default 40000 max_diff_chars)
              (nl ++ nl) (nl ++ nl) ++
            diff_out (body_text resp) (default 40000 max_diff_chars))),
     answered s (text_request (pull_url ref) diff_media_type) (inr resp) w).
Proof.
  intros Href Hup Hok.
  unfold github_get_pull_request_diff. cbv zeta.
  rewrite run_bind, Href, run_lift, run_bind.
  erewrite ghFetchText_ok by eauto. reflexivity.
Qed.

Lemma fetch_diffBlock_run ref max_diff_chars s resp w :
  upstream (text_request (pull_url ref) diff_media_type) (world s)
    = (inr resp, w) ->
  ok resp = true ->
  fetch_diffBlock ref true max_diff_chars s =
    (Ok (diffBlock_of (body_text resp) max_diff_chars),
     answered s (text_request (pull_url ref) diff_media_type) (inr resp) w).
Proof.
  intros Hup Hok. unfold fetch_diffBlock. rewrite run_bind.
  erewrite ghFetchText_ok by eauto. reflexivity.
Qed.

(** The summary handler, when each of its steps succeeds. *)
Lemma github_summarize_pull_request_run
    pr_url include_patches max_files max_patch_chars include_diff max_diff_chars
    ref pr files fileLines diffBlock report (s0 s1 s2 s3 : Net) :
  parsePrUrl pr_url = Ok ref ->
  ghFetchJson (pull_url ref) s0 = (Ok pr, s1) ->
  listPrFilesPaginated (owner ref) (repo ref) (number ref)
    (default 50 max_files) s1 = (Ok files, s2) ->
  map_throwing (fileLine (default true include_patches)
                  (default 2000 max_patch_chars)) files = Ok fileLines ->
  fetch_diffBlock ref (default false include_diff)
    (default 40000 max_diff_chars) s2 = (Ok diffBlock, s3) ->
  summary_text pr (default 50 max_files) fileLines = Ok report ->
  github_summarize_pull_request pr_url include_patches max_files
    max_patch_chars include_diff max_diff_chars s0 =
    (Ok (text_result (summary_instructions ++ report ++ diffBlock)), s3).
Proof.
  intros Href Hpr Hfiles Hlines Hdiff Hreport.
  unfold github_summarize_pull_request. cbv zeta.
  rewrite run_bind, Href, run_lift.
  rewrite run_bind, Hpr.
  rewrite run_bind, Hfiles.
  rewrite run_bind, Hlines, run_lift.
  rewrite run_bind, Hdiff.
  rewrite run_bind, Hreport, run_lift.
  reflexivity.
Qed.

Lemma diff_out_cut diff C :
  0 < C -> C < Z.of_nat (length diff) ->
  diff_out diff C = take (Z.to_nat C) diff.
Proof.
  intros H0 HL. unfold diff_out, slice0.
  destruct (Z.eqb_spec C 0); [lia|].
  destruct (Z.ltb_spec C 0); [lia|].
  f_equal. lia.
Qed.

Lemma diff_out_whole diff C :
  C = 0 \/ Z.of_nat (length diff) <= C -> diff_out diff C = diff.
Proof.
  intros H. unfold diff_out.
  destruct (Z.eqb_spec C 0); trivial. apply slice0_all. lia.
Qed.

Lemma diff_notice_cut diff C tail otherwise :
  0 < C -> C < Z.of_nat (length diff) ->
  diff_notice diff C tail otherwise =
    lit "(truncado a " ++ Z_to_jstring C ++ lit " chars de " ++
    Z_to_jstring (Z.of_nat (length diff)) ++ lit ")" ++ tail.
Proof.
  intros H0 HL. unfold diff_notice.
  destruct (Z.ltb_spec 0 C); [|lia].
  destruct (Z.ltb_spec C (Z.of_nat (length diff))); [|lia]. reflexivity.
Qed.

Lemma diff_notice_whole diff C tail otherwise :
  C = 0 \/ Z.of_nat (length diff) <= C ->
  diff_notice diff C tail otherwise = otherwise.
Proof.
  intros H. unfold diff_notice.
  destruct (Z.ltb_spec 0 C); trivial.
  destruct (Z.ltb_spec C (Z.of_nat (length diff))); trivial. lia.
Qed.

(** C3. For a diff of length [L] and a cap [C] given as [max_diff_chars]:
    the text of [github_get_pull_request_diff] is its header line, the
    notice part and the diff part, and the diff block of
    [github_summarize_pull_request] (asked with [include_diff]) is its
    heading, the notice part and the diff part, where
    - if [0 < C < L], the diff part is the first [C] units of the diff, of
      length exactly [C], and the notice part is
      [(truncado a C chars de L)] (followed by the line break);
    - if [C = 0], the diff part is the whole diff and there is no notice;
    - if [0 < C] and [L <= C], the diff part is the whole diff and there is
      no notice. *)
Theorem diff_truncation (diff : jstring) (C : Z) :
  let L := Z.of_nat (length diff) in
  let notice := lit "(truncado a " ++ Z_to_jstring C ++ lit " chars de " ++
                Z_to_jstring L ++ lit ")" in
  (* what each tool returns, through its notice and diff parts *)
  (forall pr_url ref s resp w,
      parsePrUrl pr_url = Ok ref ->
      upstream (text_request (pull_url ref) diff_media_type) (world s)
        = (inr resp, w) ->
      ok resp = true -> body_text resp = diff ->
      fst (github_get_pull_request_diff pr_url (Some C) s) =
        Ok (text_result
              (lit "PR Diff (unified) for " ++ pr_url ++ nl ++
               diff_notice diff C (nl ++ nl) (nl ++ nl) ++ diff_out diff C))) /\
  (forall pr_url include_patches max_files max_patch_chars
          ref pr files fileLines report (s0 s1 s2 : Net) resp w,
      parsePrUrl pr_url = Ok ref ->
      ghFetchJson (pull_url ref) s0 = (Ok pr, s1) ->
      listPrFilesPaginated (owner ref) (repo ref) (number ref)
        (default 50 max_files) s1 = (Ok files, s2) ->
      map_throwing (fileLine (default true include_patches)
                      (default 2000 max_patch_chars)) files = Ok fileLines ->
      upstream (text_request (pull_url ref) diff_media_type) (world s2)
        = (inr resp, w) ->
      ok resp = true -> body_text resp = diff ->
      summary_text pr (default 50 max_files) fileLines = Ok report ->
      fst (github_summarize_pull_request pr_url include_patches max_files
             max_patch_chars (Some true) (Some C) s0) =
        Ok (text_result
              (summary_instructions ++ report ++
               nl ++ nl ++ lit "Unified diff (global):" ++ nl ++
               diff_notice diff C nl [] ++ diff_out diff C))) /\
  (* the three cases *)
  (0 < C -> C < L ->
   diff_out diff C = take (Z.to_nat C) diff /\
   Z.of_nat (length (diff_out diff C)) = C /\
   diff_notice diff C (nl ++ nl) (nl ++ nl) = notice ++ nl ++ nl /\
   diff_notice diff C nl [] = notice ++ nl) /\
  (C = 0 ->
   diff_out diff C = diff /\
   diff_notice diff C (nl ++ nl) (nl ++ nl) = nl ++ nl /\
   diff_notice diff C nl [] = []) /\
  (0 < C -> L <= C ->
   diff_out diff C = diff /\
   diff_notice diff C (nl ++ nl) (nl ++ nl) = nl ++ nl /\
   diff_notice diff C nl [] = []).
Proof.
  intros L notice. repeat split.
  - intros pr_url ref s resp w Href Hup Hok <-.
    erewrite github_get_pull_request_diff_run by eauto. reflexivity.
  - intros pr_url ip mf mp ref pr files fileLines report s0 s1 s2 resp w
      Href Hpr Hfiles Hlines Hup Hok <- Hreport.
    rewrite (github_summarize_pull_request_run pr_url ip mf mp (Some true)
               (Some C) ref pr files fileLines
               (diffBlock_of (body_text resp) C) report s0 s1 s2
               (answered s2 (text_request (pull_url ref) diff_media_type)
                  (inr resp) w)); trivial.
    now apply fetch_diffBlock_run.
  - now apply diff_out_cut.
  - rewrite diff_out_cut, length_take by lia. unfold L in *. lia.
  - unfold notice. rewrite diff_notice_cut by lia.
    now rewrite <- !app_assoc.
  - unfold notice. rewrite diff_notice_cut by lia.
    now rewrite <- !app_assoc.
  - apply diff_out_whole. now left.
  - apply diff_notice_whole. now left.
  - apply diff_notice_whole. now left.
  - apply diff_out_whole. now right.
  - apply diff_notice_whole. now right.
  - apply diff_notice_whole. now right.
Qed.

Lemma summary_text_scenario (max_files : Z) (fileLines : list jstring) :
  summary_text scenario_pr max_files fileLines =
  Ok (lit "PR: https://github.com/acme/widgets/pull/42" ++ nl ++
      lit "Title: Fix bug" ++ nl ++
      lit "Author: alice" ++ nl ++
      lit "State: open | Draft: no | Merged: no" ++ nl ++
      lit "Base: main <- Head: fix" ++ nl ++
      lit "Commits: 3 | Files changed: 2 | Additions: 10 | Deletions: 4" ++ nl ++
      nl ++
      lit "Description (body):" ++ nl ++
      lit "Fixes #1" ++ nl ++
      nl ++
      lit "Changed files (up to " ++ Z_to_jstring max_files ++ lit "):" ++ nl ++
      join (nl ++ nl) fileLines).
Proof.
  unfold summary_text.
  generalize (Z_to_jstring max_files) (join (nl ++ nl) fileLines).
  intros n fl. vm_compute. f_equal.
  repeat (apply (f_equal (cons _))).
  exact (eq_sym (app_assoc n [41%N; 58%N] (10%N :: fl))).
Qed.

(** C4 (amended).  For the pull request of the scenario (metadata as
    given, with the address of the pull request as its [html_url]), the
    text of [github_summarize_pull_request] is the fixed sentence of
    instructions and an empty line, and only then the report, which begins
    with the line [PR: https://github.com/acme/widgets/pull/42], followed
    by the title line, the author line, the state, draft and merged line,
    the base and head line, the counts line, the body under its heading and
    the file list under its heading, in that order (the diff block, when
    asked for, comes last). *)
Theorem github_summarize_pull_request_scenario
    pr_url include_patches max_files max_patch_chars include_diff max_diff_chars
    ref files fileLines diffBlock (s0 s1 s2 s3 : Net) :
  parsePrUrl pr_url = Ok ref ->
  ghFetchJson (pull_url ref) s0 = (Ok scenario_pr, s1) ->
  listPrFilesPaginated (owner ref) (repo ref) (number ref)
    (default 50 max_files) s1 = (Ok files, s2) ->
  map_throwing (fileLine (default true include_patches)
                  (default 2000 max_patch_chars)) files = Ok fileLines ->
  fetch_diffBlock ref (default false include_diff)
    (default 40000 max_diff_chars) s2 = (Ok diffBlock, s3) ->
  fst (github_summarize_pull_request pr_url include_patches max_files
         max_patch_chars include_diff max_diff_chars s0) =
    Ok (text_result
          (lit "Us" ++ a_acute ++
           lit " el siguiente material para generar un resumen. " ++
           lit "Inclu" ++ i_acute ++
           lit ": objetivo, cambios principales, archivos tocados, impacto, riesgos, checklist de revisi" ++
           o_acute ++ lit "n, y sugerencias de test." ++ nl ++
           nl ++
           lit "PR: https://github.com/acme/widgets/pull/42" ++ nl ++
           lit "Title: Fix bug" ++ nl ++
           lit "Author: alice" ++ nl ++
           lit "State: open | Draft: no | Merged: no" ++ nl ++
           lit "Base: main <- Head: fix" ++ nl ++
           lit "Commits: 3 | Files changed: 2 | Additions: 10 | Deletions: 4" ++ nl ++
           nl ++
           lit "Description (body):" ++ nl ++
           lit "Fixes #1" ++ nl ++
           nl ++
           lit "Changed files (up to " ++ Z_to_jstring (default 50 max_files) ++
             lit "):" ++ nl ++
           join (nl ++ nl) fileLines ++
           diffBlock)).
Proof.
  intros Href Hpr Hfiles Hlines Hdiff.
  rewrite (github_summarize_pull_request_run pr_url include_patches max_files
             max_patch_chars include_diff max_diff_chars ref scenario_pr files
             fileLines diffBlock _ s0 s1 s2 s3 Href Hpr Hfiles Hlines Hdiff
             (summary_text_scenario _ _)).
  cbn [fst]. unfold summary_instructions. do 2 f_equal.
  rewrite <- !app_assoc. reflexivity.
Qed.

(** The line of a file whose patch is a string: the base line, followed
    by the excerpt when there is one. *)
Lemma fileLine_string_patch (f : value) (patch : jstring) (max_patch_chars : Z) :
  get f (lit "patch") = Ok (JStr patch) ->
  fileLine true max_patch_chars f =
    base ← file_base f;
    Ok (match slice0 patch max_patch_chars with
        | [] => base
        | _ => base ++ nl ++ lit "  patch:" ++ nl ++
               replace_newlines (nl ++ lit "  ") (slice0 patch max_patch_chars)
        end).
Proof.
  intros Hpatch. unfold fileLine.
  destruct (file_base f) as [base| |]; try reflexivity.
  cbn [mbind outcome_bind negb]. rewrite Hpatch. cbn [mbind outcome_bind].
  destruct patch as [|c patch']; cbn [ToBoolean];
    destruct (slice0 _ max_patch_chars); reflexivity.
Qed.

Lemma slice0_take {A} (l : list A) (e : Z) :
  0 <= e -> slice0 l e = take (Z.to_nat e) l.
Proof.
  intros He. unfold slice0.
  destruct (Z.ltb_spec e 0); [lia|].
  destruct (Z.min_spec e (Z.of_nat (length l))) as [[? ->]|[? ->]]; trivial.
  rewrite Nat2Z.id, !take_ge; trivial; lia.
Qed.

(** Indentation adds two units for each line break. *)
Lemma replace_newlines_length (s : jstring) :
  length (replace_newlines (nl ++ lit "  ") s) =
    (length s + 2 * line_breaks s)%nat.
Proof.
  unfold replace_newlines, line_breaks. set (by_ := nl ++ lit "  ").
  assert (Hby : length by_ = 3%nat) by reflexivity. clearbody by_.
  induction s as [|c s IH]; [reflexivity|].
  cbn [flat_map List.filter]. rewrite length_app, IH.
  destruct (N.eqb c 10); [rewrite Hby|]; cbn [length]; lia.
Qed.

Lemma line_breaks_length (s : jstring) : (line_breaks s <= length s)%nat.
Proof.
  unfold line_breaks. induction s as [|c s IH]; [reflexivity|].
  cbn [List.filter]. destruct (N.eqb c 10); cbn [length]; lia.
Qed.

(** C10 (amended).  In the file list of [github_summarize_pull_request],
    with [include_patches] true, for a file whose patch is any string, even
    a non-empty one, and whose [- filename (+A/-D) [status]] line is
    [base]: when [max_patch_chars = 0] the line of the file is [base]
    alone, without any patch excerpt; when [max_patch_chars > 0] the
    excerpt is the first [max_patch_chars] units of the patch, so of length
    at most [max_patch_chars], and the line carries it after [patch:] when
    it is not empty, written with two spaces after each of its line
    breaks: as emitted it is longer than the excerpt by twice the number
    of its line breaks, and has at most [3 * max_patch_chars] units. *)
Theorem patch_excerpt_cap (f : value) (patch base : jstring) :
  get f (lit "patch") = Ok (JStr patch) ->
  file_base f = Ok base ->
  fileLine true 0 f = Ok base /\
  forall max_patch_chars, 0 < max_patch_chars ->
    let excerpt := take (Z.to_nat max_patch_chars) patch in
    let emitted := replace_newlines (nl ++ lit "  ") excerpt in
    Z.of_nat (length excerpt) <= max_patch_chars /\
    fileLine true max_patch_chars f =
      Ok (match excerpt with
          | [] => base
          | _ => base ++ nl ++ lit "  patch:" ++ nl ++ emitted
          end) /\
    Z.of_nat (length emitted) =
      Z.of_nat (length excerpt) + 2 * Z.of_nat (line_breaks excerpt) /\
    Z.of_nat (length emitted) <= 3 * max_patch_chars.
Proof.
  intros Hpatch Hbase. split.
  - rewrite (fileLine_string_patch f patch 0 Hpatch), Hbase.
    cbn [mbind outcome_bind]. rewrite slice0_take by lia.
    change (Z.to_nat 0) with 0%nat. now rewrite take_0.
  - intros m Hm excerpt emitted.
    assert (Hlen : Z.of_nat (length excerpt) <= m)
      by (unfold excerpt; rewrite length_take; lia).
    assert (Hemitted : length emitted =
                       (length excerpt + 2 * line_breaks excerpt)%nat)
      by apply replace_newlines_length.
    pose proof (line_breaks_length excerpt).
    split; [exact Hlen|]. split; [|split; lia].
    rewrite (fileLine_string_patch f patch m Hpatch), Hbase.
    cbn [mbind outcome_bind]. rewrite slice0_take by lia. reflexivity.
Qed.

(** *** What the handlers ask of the upstream *)

Lemma fetch_inv req s r s' :
  fetch req s = (r, s') ->
  exists x w,
    upstream req (world s) = (x, w) /\ s' = answered s req x w /\
    match x with
    | inl e => r = Throw e
    | inr resp => r = Ok resp
    end.
Proof.
  unfold fetch. destruct (upstream req (world s)) as [x w].
  intros H. exists x, w. split; [reflexivity|].
  destruct x; injection H as <- <-; auto.
Qed.

Lemma ghFetchJson_inv u s r s' :
  ghFetchJson u s = (r, s') ->
  exists x w,
    s' = answered s (json_request u) x w /\
    forall v, r = Ok v ->
      exists resp, x = inr resp /\ ok resp = true /\ body_json resp = Some v.
Proof.
  unfold ghFetchJson. rewrite run_bind.
  destruct (fetch _ s) as [r1 s1] eqn:Ef.
  apply fetch_inv in Ef as (x & w & _ & -> & Hx).
  intros H. exists x, w.
  destruct x as [e|resp]; subst r1.
  - injection H as <- <-. split; [reflexivity|]. discriminate.
  - destruct (ok resp) eqn:Hok; cbn [negb] in H.
    + destruct (body_json resp) as [v0|] eqn:Hb; injection H as <- <-;
        (split; [reflexivity|]); [|discriminate].
      intros v [= <-]. eauto.
    + injection H as <- <-. split; [reflexivity|]. discriminate.
Qed.

Lemma ghFetchText_inv u accept s r s' :
  ghFetchText u accept s = (r, s') ->
  exists x w,
    s' = answered s (text_request u accept) x w /\
    forall t, r = Ok t ->
      exists resp, x = inr resp /\ ok resp = true /\ body_text resp = t.
Proof.
  unfold ghFetchText. rewrite run_bind.
  destruct (fetch _ s) as [r1 s1] eqn:Ef.
  apply fetch_inv in Ef as (x & w & _ & -> & Hx).
  intros H. exists x, w.
  destruct x as [e|resp]; subst r1.
  - injection H as <- <-. split; [reflexivity|]. discriminate.
  - destruct (ok resp) eqn:Hok; cbn [negb] in H; injection H as <- <-;
      (split; [reflexivity|]); [|discriminate].
    intros t [= <-]. eauto.
Qed.

Lemma issues_quiet {A} Q (c : M A) :
  (forall s, snd (c s) = s) -> issues Q 0 c.
Proof.
  intros Hq s r s' Hrun. specialize (Hq s). rewrite Hrun in Hq. cbn in Hq.
  subst s'. exists []. rewrite app_nil_r. repeat split; auto.
Qed.

Lemma issues_ret {A} Q (a : A) : issues Q 0 (mret a).
Proof. now apply issues_quiet. Qed.

Lemma issues_lift {A} Q (c : outcome A) : issues Q 0 (lift c).
Proof. now apply issues_quiet. Qed.

Lemma issues_more {A} Q (n m : nat) (c : M A) :
  (n <= m)%nat -> issues Q n c -> issues Q m c.
Proof.
  intros Hnm Hc s r s' Hrun.
  destruct (Hc s r s' Hrun) as (new & Hlog & HQ & Hlen).
  exists new. repeat split; auto. lia.
Qed.

Lemma issues_bind {A B} Q (n m : nat) (c : M A) (f : A -> M B) :
  issues Q n c -> (forall a, issues Q m (f a)) -> issues Q (n + m) (c ≫= f).
Proof.
  intros Hc Hf s r s' Hrun. rewrite run_bind in Hrun.
  destruct (c s) as [r1 s1] eqn:Ec.
  destruct (Hc s r1 s1 Ec) as (new1 & Hlog1 & HQ1 & Hlen1).
  destruct r1 as [a|e|].
  - destruct (Hf a s1 r s' Hrun) as (new2 & Hlog2 & HQ2 & Hlen2).
    exists (new1 ++ new2). rewrite Hlog2, Hlog1, app_assoc.
    repeat split; [now apply Forall_app|rewrite length_app; lia].
  - injection Hrun as <- <-. exists new1. repeat split; auto. lia.
  - injection Hrun as <- <-. exists new1. repeat split; auto. lia.
Qed.

Lemma issues_ghFetchJson (Q : Request -> Prop) u :
  Q (json_request u) -> issues Q 1 (ghFetchJson u).
Proof.
  intros HQ s r s' Hrun.
  apply ghFetchJson_inv in Hrun as (x & w & -> & _).
  exists [(json_request u, x)]. repeat split; auto.
Qed.

Lemma issues_ghFetchText (Q : Request -> Prop) u accept :
  Q (text_request u accept) -> issues Q 1 (ghFetchText u accept).
Proof.
  intros HQ s r s' Hrun.
  apply ghFetchText_inv in Hrun as (x & w & -> & _).
  exists [(text_request u accept, x)]. repeat split; auto.
Qed.

Lemma ceil_div_pos (x pp : Z) : 1 <= pp -> 1 <= x -> 1 <= ceil_div x pp.
Proof.
  intros Hpp Hx. unfold ceil_div.
  apply Z.div_le_lower_bound; lia.
Qed.

Lemma ceil_div_nonpos (x pp : Z) : 1 <= pp -> x <= 0 -> ceil_div x pp <= 0.
Proof.
  intros Hpp Hx. unfold ceil_div.
  assert ((x + pp - 1) / pp < 1); [|lia].
  apply Z.div_lt_upper_bound; lia.
Qed.

Lemma ceil_div_mono (x y pp : Z) :
  1 <= pp -> x <= y -> ceil_div x pp <= ceil_div y pp.
Proof. intros Hpp Hxy. unfold ceil_div. apply Z.div_le_mono; lia. Qed.

Lemma ceil_div_less_a_page (x pp : Z) :
  1 <= pp -> ceil_div (x - pp) pp = ceil_div x pp - 1.
Proof.
  intros Hpp. unfold ceil_div.
  replace (x - pp + pp - 1) with (x + pp - 1 + (-1) * pp) by lia.
  rewrite Z.div_add by lia. lia.
Qed.

(** One more request, then at most those of the rest. *)
Lemma ceil_div_step (x y pp : Z) :
  1 <= pp -> 1 <= x -> y <= 0 \/ y <= x - pp ->
  1 + Z.max 0 (ceil_div y pp) <= ceil_div x pp.
Proof.
  intros Hpp Hx Hy.
  pose proof (ceil_div_pos x pp Hpp Hx).
  destruct Hy as [Hy|Hy].
  - pose proof (ceil_div_nonpos y pp Hpp Hy). lia.
  - pose proof (ceil_div_mono y (x - pp) pp Hpp Hy).
    rewrite ceil_div_less_a_page in *; lia.
Qed.

Ltac ran_to_end H :=
  unfold diverge, mret, M_ret in H; injection H as <- <-.

(** A trace given in full: all of its clauses but the one on the result
    are closed by computation. *)
Ltac trace_with new ks :=
  exists new, ks;
  split; [unfold answered; cbn [log]; rewrite ?app_nil_r; reflexivity|];
  split; [cbn; unfold json_request; rewrite ?Z.add_0_r; reflexivity|];
  split; [repeat constructor; lia|];
  split; [cbn [length]; lia|].

(** The requests of the loop, one by one: consecutive pages from [page]
    on, each of a size between 1 and [perPage] and no more than what is
    still missing; and the records it returns are those it had, followed by
    the ones received, in the order received. *)
Lemma files_loop_trace fuel o r n max_files perPage :
  1 <= perPage ->
  forall page all s res s',
    files_loop fuel o r n max_files perPage page all s = (res, s') ->
    exists new ks,
      log s' = log s ++ new /\
      map fst new =
        imap (fun i k => json_request (files_url o r n k (page + Z.of_nat i)))
          ks /\
      Forall (fun k => 1 <= k <= perPage /\ k <= max_files) ks /\
      Z.of_nat (length ks) <=
        Z.max 0 (ceil_div (max_files - Z.of_nat (length all)) perPage) /\
      (forall files, res = Ok files ->
         files = all ++ flat_map records_of new).
Proof.
  intros Hpp. induction fuel as [|fuel IH]; intros page all s res s' Hrun;
    rewrite files_loop_eq in Hrun;
    destruct (Z.ltb_spec (Z.of_nat (length all)) max_files) as [Hlt|Hge];
    try (ran_to_end Hrun; trace_with (@nil (Request * (exn + Response)))
           (@nil Z);
         first [discriminate | intros files [= <-]; now rewrite app_nil_r]).
  cbv zeta in Hrun. rewrite run_bind in Hrun.
  set (cpp := Z.min perPage (max_files - Z.of_nat (length all))) in *.
  assert (Hcpp : 1 <= cpp <= perPage /\ cpp <= max_files) by lia.
  assert (Hone : 1 <= ceil_div (max_files - Z.of_nat (length all)) perPage)
    by (apply ceil_div_pos; lia).
  destruct (ghFetchJson _ s) as [r1 s1] eqn:Efetch.
  apply ghFetchJson_inv in Efetch as (x & w & -> & Hok).
  set (req := json_request (files_url o r n cpp page)) in *.
  destruct r1 as [batch|e|].
  - destruct (Hok batch eq_refl) as (resp & -> & _ & Hbody).
    assert (Hrec : records_of (req, inr resp) =
                   match batch with JArr items => items | _ => [] end)
      by (unfold records_of; cbn [snd]; now rewrite Hbody).
    destruct batch as [| | | | |items|];
      try (ran_to_end Hrun; trace_with [(req, @inr exn _ resp)] [cpp];
           intros files [= <-]; cbn [flat_map]; rewrite Hrec;
           now rewrite !app_nil_r).
    destruct (Z.eqb_spec (Z.of_nat (length items)) 0) as [Hz|Hnz].
    { ran_to_end Hrun. trace_with [(req, @inr exn _ resp)] [cpp].
      intros files [= <-]. cbn [flat_map]. rewrite Hrec.
      destruct items; [now rewrite !app_nil_r|cbn [length] in Hz; lia]. }
    rewrite run_bind in Hrun.
    destruct (push_spread all items _) as [r2 s2] eqn:Epush.
    apply push_spread_inv in Epush as [-> [[-> _]|[-> _]]];
      [|ran_to_end Hrun; trace_with [(req, @inr exn _ resp)] [cpp];
        discriminate].
    destruct (Z.ltb_spec (Z.of_nat (length items)) cpp) as [Hshort|Hfull].
    { ran_to_end Hrun. trace_with [(req, @inr exn _ resp)] [cpp].
      intros files [= <-]. cbn [flat_map]. rewrite Hrec.
      now rewrite app_nil_r. }
    destruct (IH _ _ _ _ _ Hrun) as (new & ks & Hlog & Hreqs & Hks & Hlen & Hres).
    exists ((req, inr resp) :: new), (cpp :: ks).
    rewrite Hlog. unfold answered; cbn [log]. rewrite <- app_assoc.
    split; [reflexivity|]. split; [|split; [|split]].
    + cbn [map fst imap]. f_equal; [unfold req; now rewrite Z.add_0_r|].
      rewrite Hreqs. apply imap_ext. intros i k _. cbn.
      replace (page + 1 + Z.of_nat i) with (page + Z.of_nat (S i)) by lia.
      reflexivity.
    + constructor; auto.
    + rewrite length_app in Hlen. cbn [length].
      assert (Hrest : max_files - (Z.of_nat (length all) + Z.of_nat (length items)) <= 0 \/
                      max_files - (Z.of_nat (length all) + Z.of_nat (length items))
                      <= max_files - Z.of_nat (length all) - perPage)
        by (unfold cpp in Hfull; lia).
      pose proof (ceil_div_step (max_files - Z.of_nat (length all))
                    (max_files - (Z.of_nat (length all) + Z.of_nat (length items)))
                    perPage Hpp ltac:(lia) Hrest) as Hstep.
      rewrite Nat2Z.inj_add in Hlen. lia.
    + intros files Hfiles. rewrite (Hres files Hfiles).
      cbn [flat_map]. rewrite Hrec. now rewrite <- app_assoc.
  - ran_to_end Hrun. trace_with [(req, x)] [cpp]. discriminate.
  - ran_to_end Hrun. trace_with [(req, x)] [cpp]. discriminate.
Qed.

Lemma to_github_api_json u :
  starts_with (lit "https://api.github.com/") (resource u) = true ->
  to_github_api (json_request u).
Proof. intros H. repeat split; auto. Qed.

Lemma to_github_api_diff u :
  starts_with (lit "https://api.github.com/") (resource u) = true ->
  to_github_api (text_request u diff_media_type).
Proof. intros H. repeat split; auto. Qed.

Lemma issues_listPrFilesPaginated (Q : Request -> Prop) o r n max_files :
  (forall k p, Q (json_request (files_url o r n k p))) ->
  issues Q (Z.to_nat (ceil_div max_files (Z.min 100 (Z.max 1 max_files))))
    (listPrFilesPaginated o r n max_files).
Proof.
  intros HQ s res s' Hrun.
  unfold listPrFilesPaginated in Hrun. cbv zeta in Hrun.
  rewrite run_bind in Hrun.
  destruct (files_loop _ _ _ _ _ _ _ _ s) as [r1 s1] eqn:Eloop.
  apply files_loop_trace in Eloop as (new & ks & Hlog & Hreqs & _ & Hlen & _);
    [|lia].
  assert (s' = s1) by (destruct r1; ran_to_end Hrun; reflexivity). subst s'.
  exists new. split; [exact Hlog|]. split.
  - apply Forall_forall. intros e He.
    apply list_elem_of_In in He.
    apply (in_map fst) in He. rewrite Hreqs in He.
    apply list_elem_of_In, list_elem_of_lookup in He as [i Hi].
    rewrite list_lookup_imap in Hi.
    destruct (ks !! i) as [k|]; [|discriminate].
    injection Hi as <-. apply HQ.
  - apply (f_equal (@length _)) in Hreqs.
    rewrite length_map, length_imap in Hreqs.
    change (Z.of_nat (length (@nil value))) with 0 in Hlen.
    rewrite Z.sub_0_r in Hlen. lia.
Qed.

Lemma issues_handle call :
  issues to_github_api (request_budget call) (handle call).
Proof.
  destruct call; cbn [handle request_budget];
    [ unfold github_list_repos
    | unfold github_list_pull_requests
    | unfold github_get_pull_request_diff
    | unfold github_summarize_pull_request ];
    cbv zeta.
  - eapply issues_more;
      [|apply issues_bind;
          [apply issues_ghFetchJson, to_github_api_json; reflexivity|];
        intros ?; apply issues_bind; [apply issues_lift|];
        intros ?; apply issues_ret]; lia.
  - eapply issues_more;
      [|apply issues_bind;
          [apply issues_ghFetchJson, to_github_api_json; reflexivity|];
        intros ?; apply issues_bind; [apply issues_lift|];
        intros ?; apply issues_ret]; lia.
  - eapply issues_more;
      [|apply issues_bind; [apply issues_lift|];
        intros ?; apply issues_bind;
          [apply issues_ghFetchText, to_github_api_diff; reflexivity|];
        intros ?; apply issues_ret]; lia.
  - eapply issues_more;
      [|apply issues_bind; [apply issues_lift|];
        intros ref; apply issues_bind;
          [apply issues_ghFetchJson, to_github_api_json; reflexivity|];
        intros ?; apply issues_bind;
          [apply issues_listPrFilesPaginated;
           intros; apply to_github_api_json; reflexivity|];
        intros ?; apply issues_bind; [apply issues_lift|];
        intros ?; apply issues_bind;
          [apply (issues_more _ _ 1 _ (Nat.le_refl 1)) |
           intros ?; apply issues_bind; [apply issues_lift|];
           intros ?; apply issues_ret]].
    + lia.
    + unfold fetch_diffBlock. destruct (default false include_diff).
      * eapply issues_more;
          [|apply issues_bind;
              [apply issues_ghFetchText, to_github_api_diff; reflexivity|];
            intros ?; apply issues_ret]; lia.
      * eapply issues_more; [|apply issues_ret]. lia.
Qed.

(** X5. Whatever the tool and its arguments, every request it issues
    carries the [Authorization: Bearer] header with the token, asks for
    GitHub's JSON or for a diff, and is addressed to
    [https://api.github.com/]. *)
Theorem requests_to_github_api (call : ToolCall) (w : World) :
  Forall (fun e : Request * (exn + Response) =>
            Authorization (fst e) = lit "Bearer " ++ token /\
            (Accept (fst e) = lit "application/vnd.github+json" \/
             Accept (fst e) = lit "application/vnd.github.v3.diff") /\
            starts_with (lit "https://api.github.com/")
              (resource (url (fst e))) = true)
    (log (snd (run (handle call) w))).
Proof.
  destruct (run (handle call) w) as [r net] eqn:Hrun.
  destruct (issues_handle call _ _ _ Hrun) as (new & Hlog & HQ & _).
  cbn [snd]. rewrite Hlog. exact HQ.
Qed.

(** X6. The number of requests of a tool invocation is bounded, whatever
    the upstream answers: one for each of the list tools and for the diff
    tool; for the summary, two and the pages of files, which are at most
    [ceil(max_files / min(100, max_files))], so no more than five requests
    in all for a [max_files] between 1 and 300 and no more than three for
    a [max_files] up to 100. *)
Theorem request_count_bounded (call : ToolCall) (w : World) :
  (length (log (snd (run (handle call) w))) <= request_budget call)%nat /\
  (forall pr_url ip max_files mp idf mdc,
      call = SummarizePullRequest pr_url ip max_files mp idf mdc ->
      (1 <= default 50 max_files <= 300 -> (request_budget call <= 5)%nat) /\
      (1 <= default 50 max_files <= 100 -> (request_budget call <= 3)%nat)).
Proof.
  split.
  - destruct (run (handle call) w) as [r net] eqn:Hrun.
    destruct (issues_handle call _ _ _ Hrun) as (new & Hlog & _ & Hlen).
    cbn [snd]. rewrite Hlog. exact Hlen.
  - intros pr_url ip max_files mp idf mdc ->. cbn [request_budget].
    set (m := default 50 max_files).
    split; intros Hm.
    + assert (ceil_div m (Z.min 100 (Z.max 1 m)) < 4); [|lia].
      unfold ceil_div. apply Z.div_lt_upper_bound; lia.
    + assert (ceil_div m (Z.min 100 (Z.max 1 m)) < 2); [|lia].
      unfold ceil_div. apply Z.div_lt_upper_bound; lia.
Qed.

(** X7. The page requests of [listPrFilesPaginated] are for the pages 1,
    2, 3, ... in that order, each with a [per_page] between 1 and 100 and no
    larger than [max_files]; there are at most
    [ceil(max_files / min(100, max_files))] of them (none when
    [max_files <= 0]), whatever the upstream answers. *)
Theorem listPrFilesPaginated_page_sequence o r n max_files (s : Net) :
  exists new ks,
    log (snd (listPrFilesPaginated o r n max_files s)) = log s ++ new /\
    map fst new =
      imap (fun i k => json_request (files_url o r n k (1 + Z.of_nat i))) ks /\
    Forall (fun k => 1 <= k <= 100 /\ k <= max_files) ks /\
    Z.of_nat (length ks) <=
      Z.max 0 (ceil_div max_files (Z.min 100 (Z.max 1 max_files))).
Proof.
  unfold listPrFilesPaginated. cbv zeta. rewrite run_bind.
  destruct (files_loop _ _ _ _ _ _ _ _ s) as [r1 s1] eqn:Eloop.
  apply files_loop_trace in Eloop as (new & ks & Hlog & Hreqs & Hks & Hlen & _);
    [|lia].
  exists new, ks.
  split; [destruct r1; exact Hlog|]. split; [exact Hreqs|]. split.
  - eapply Forall_impl; [exact Hks|]. cbn. intros k Hk. lia.
  - change (Z.of_nat (length (@nil value))) with 0 in Hlen.
    now rewrite Z.sub_0_r in Hlen.
Qed.

(** X8. The records [listPrFilesPaginated] returns are the ones received,
    page after page in the order received, cut at [max_files]: it adds
    none, drops none before the cut and reorders none. *)
Theorem listPrFilesPaginated_in_order o r n max_files (s s' : Net) files :
  listPrFilesPaginated o r n max_files s = (Ok files, s') ->
  exists new,
    log s' = log s ++ new /\
    files = slice0 (flat_map records_of new) max_files.
Proof.
  unfold listPrFilesPaginated. cbv zeta. rewrite run_bind.
  destruct (files_loop _ _ _ _ _ _ _ _ s) as [r1 s1] eqn:Eloop.
  apply files_loop_trace in Eloop as (new & ks & Hlog & _ & _ & _ & Hres);
    [|lia].
  destruct r1 as [all| |]; try discriminate.
  intros Hrun. ran_to_end Hrun. exists new. split; [exact Hlog|].
  now rewrite (Hres all eq_refl).
Qed.

(** *** More on the address parser *)

Lemma split_without_separator (sep : code_unit) (s : jstring) :
  Forall (Forall (fun c => c <> sep)) (split sep s).
Proof.
  induction s as [|c s IH]; cbn [split]; [repeat constructor|].
  destruct (N.eqb_spec c sep) as [->|Hc]; [now constructor|].
  destruct (split sep s) as [|w ws]; [repeat constructor; trivial|].
  inversion IH; subst. constructor; [now constructor|trivial].
Qed.

Lemma segments_slash_free (path p : jstring) (i : nat) :
  segments path !! i = Some p -> Forall (fun c => c <> 47%N) p.
Proof.
  intros Hi. apply list_elem_of_lookup_2, list_elem_of_In in Hi.
  unfold segments in Hi. apply filter_In in Hi as [Hin _].
  pose proof (split_without_separator 47%N path) as Hall.
  rewrite Forall_forall in Hall. apply Hall. now apply list_elem_of_In.
Qed.

Lemma index_truthy (l : list jstring) (k : Z) :
  ToBoolean (as_value (index l k)) = true ->
  0 <= k /\ exists x, l !! Z.to_nat k = Some x /\ index l k = Some x.
Proof.
  unfold index. destruct (Z.ltb_spec k 0); [discriminate|].
  destruct (l !! Z.to_nat k) as [x|]; [|discriminate].
  intros _. split; [lia|]. eauto.
Qed.

(** X1. When [parsePrUrl] succeeds the address is one of [github.com],
    the first [pull] segment of its path is at index 2 or later, and the
    reference holds three strings, none empty and none with a slash: the
    first two segments and the one after that [pull]; the API address made
    from it is [https://api.github.com/repos/O/R/pulls/N]. *)
Theorem parsePrUrl_sound pr_url ref :
  parsePrUrl pr_url = Ok ref ->
  exists (u : URL) (i : nat) (O R N : jstring),
    new_URL pr_url = Some u /\
    hostname u = lit "github.com" /\
    (2 <= i)%nat /\
    segments (pathname u) !! 0%nat = Some O /\
    segments (pathname u) !! 1%nat = Some R /\
    segments (pathname u) !! i = Some (lit "pull") /\
    (forall j, (j < i)%nat -> segments (pathname u) !! j <> Some (lit "pull")) /\
    segments (pathname u) !! (i + 1)%nat = Some N /\
    ref = {| owner := Some O; repo := Some R; number := Some N |} /\
    Forall (fun s : jstring => s <> [] /\ Forall (fun c => c <> 47%N) s)
      [O; R; N] /\
    resource (pull_url ref) =
      lit "https://api.github.com/repos/" ++ O ++ lit "/" ++ R ++
      lit "/pulls/" ++ N.
Proof.
  unfold parsePrUrl. destruct (new_URL pr_url) as [u|]; [|discriminate].
  cbv zeta. set (parts := segments (pathname u)).
  set (pullIdx := findIndex (fun p => jstring_eqb p (lit "pull")) parts).
  destruct (_ || _) eqn:Hcond; [discriminate|]. intros [= <-].
  apply orb_false_elim in Hcond as [Hcond Hnum].
  apply orb_false_elim in Hcond as [Hhost Hidx].
  apply negb_false_iff, jstring_eqb_eq in Hhost.
  apply Z.ltb_ge in Hidx. apply negb_false_iff in Hnum.
  destruct (findIndex_found (fun p => jstring_eqb p (lit "pull")) parts)
    as (i & x & Hi & Hx & Hpull & Hfirst); [fold pullIdx; lia|].
  fold pullIdx in Hi. apply jstring_eqb_eq in Hpull. subst x.
  apply index_truthy in Hnum as (_ & N & HN & HidxN).
  rewrite Hi in HN, HidxN, Hidx.
  replace (Z.to_nat (Z.of_nat i + 1)) with (i + 1)%nat in HN by lia.
  assert (Hlen : (i < length parts)%nat) by (eapply lookup_lt_Some; eauto).
  destruct (lookup_lt_is_Some_2 parts 0) as [O HO]; [lia|].
  destruct (lookup_lt_is_Some_2 parts 1) as [R HR]; [lia|].
  pose proof (index_lookup parts 0 O HO) as H0.
  pose proof (index_lookup parts 1 R HR) as H1.
  change (Z.of_nat 0) with 0 in H0. change (Z.of_nat 1) with 1 in H1.
  assert (Hseg : forall k p, parts !! k = Some p ->
                   p <> [] /\ Forall (fun c => c <> 47%N) p).
  { intros k p Hk. split; [|eapply segments_slash_free; eauto].
    apply segments_nonempty in Hk. now destruct p. }
  exists u, i, O, R, N. rewrite Hi, H0, H1, HidxN.
  repeat split; trivial; try lia; try (eapply Hseg; eauto).
  - intros j Hj Hjp. specialize (Hfirst j _ Hj Hjp). discriminate.
  - repeat constructor; eapply Hseg; eauto.
Qed.

(** X4. When the address is refused, by the platform ([TypeError]: not a
    URL at all) or by [parsePrUrl] (its own error), the two pull request
    tools fail with that error before any request is issued. *)
Theorem invalid_pr_url_no_request pr_url e (w : World) :
  parsePrUrl pr_url = Throw e ->
  (new_URL pr_url = None /\ e = TypeError \/
   new_URL pr_url <> None /\ e = InvalidPrUrl) /\
  (forall max_diff_chars,
      run (github_get_pull_request_diff pr_url max_diff_chars) w =
        (Throw e, {| world := w; log := [] |})) /\
  (forall include_patches max_files max_patch_chars include_diff max_diff_chars,
      run (github_summarize_pull_request pr_url include_patches max_files
             max_patch_chars include_diff max_diff_chars) w =
        (Throw e, {| world := w; log := [] |})).
Proof.
  intros Hparse. split; [|split].
  - unfold parsePrUrl in Hparse.
    destruct (new_URL pr_url) as [u|]; [right|left].
    + cbv zeta in Hparse. destruct (_ || _); [|discriminate].
      injection Hparse as <-. now split.
    + injection Hparse as <-. now split.
  - intros mdc. unfold run, github_get_pull_request_diff. cbv zeta.
    now rewrite run_bind, Hparse.
  - intros ip mf mp idf mdc. unfold run, github_summarize_pull_request.
    cbv zeta. now rewrite run_bind, Hparse.
Qed.

(** X9. When the first page asked for comes back as an empty array, or
    as JSON that is not an array at all, [listPrFilesPaginated] returns no
    record, without error and without asking again. *)
Theorem listPrFilesPaginated_no_records
    o r n max_files (w w' : World) resp v :
  let currentPerPage := Z.min (Z.min 100 (Z.max 1 max_files)) max_files in
  let req := json_request (files_url o r n currentPerPage 1) in
  1 <= max_files ->
  upstream req w = (inr resp, w') ->
  ok resp = true ->
  body_json resp = Some v ->
  (forall items, v = JArr items -> items = []) ->
  run (listPrFilesPaginated o r n max_files) w =
    (Ok [], {| world := w'; log := [(req, inr resp)] |}).
Proof.
  intros cpp req Hmax Hup Hok Hbody Hv.
  unfold run, listPrFilesPaginated. cbv zeta. rewrite run_bind.
  destruct (Z.to_nat max_files) eqn:Efuel; [lia|].
  rewrite files_loop_eq.
  change (Z.of_nat (length (@nil value))) with 0.
  destruct (Z.ltb_spec 0 max_files); [|lia].
  cbv zeta. rewrite run_bind. rewrite Z.sub_0_r.
  erewrite ghFetchJson_ok by eauto.
  assert (Hcut : slice0 (@nil value) max_files = [])
    by (apply slice0_all; cbn; lia).
  destruct v as [| | | | |items|];
    try (rewrite (Hv items eq_refl);
         change (Z.of_nat (length (@nil value)) =? 0) with true);
    cbv beta iota; unfold mret, M_ret; cbv beta iota; now rewrite Hcut.
Qed.

(** *** The lines of the file list *)

(** X10. A file record without a patch (GitHub leaves it out for binary
    and for large files), or with a [null] or empty one, gives its
    [- filename (+A/-D) [status]] line alone, whatever the options; and with
    [include_patches] false the patch is not even looked at, so that a
    record with a malformed patch still gives its line.  In both cases the
    line is whatever the base line is: an error if that one cannot be
    made. *)
Theorem fileLine_without_patch (f : value) :
  (forall max_patch_chars, fileLine false max_patch_chars f = file_base f) /\
  (forall patch,
     get f (lit "patch") = Ok patch -> ToBoolean patch = false ->
     forall include_patches max_patch_chars,
       fileLine include_patches max_patch_chars f = file_base f).
Proof.
  split.
  - intros m. unfold fileLine. destruct (file_base f); reflexivity.
  - intros patch Hpatch Hfalsy ip m. unfold fileLine.
    destruct (file_base f) as [base| |]; try reflexivity.
    cbn [mbind outcome_bind]. rewrite Hpatch. cbn [mbind outcome_bind].
    rewrite Hfalsy. destruct ip; cbn [negb]; [|reflexivity].
    unfold slice0. now rewrite take_nil.
Qed.

(** X12. With a cap [max_patch_chars >= 0], the line of a file whose
    patch is a string is never longer than its
    [- filename (+A/-D) [status]] line, the ten units of the [patch:]
    heading and three times the cap: the excerpt has at most
    [max_patch_chars] units, and the indentation adds two for each of its
    line breaks. *)
Theorem fileLine_length_bounded (f : value) (patch base : jstring)
    (max_patch_chars : Z) :
  get f (lit "patch") = Ok (JStr patch) ->
  file_base f = Ok base ->
  0 <= max_patch_chars ->
  exists line,
    fileLine true max_patch_chars f = Ok line /\
    Z.of_nat (length base) <= Z.of_nat (length line) /\
    Z.of_nat (length line) <=
      Z.of_nat (length base) + 10 + 3 * max_patch_chars.
Proof.
  intros Hpatch Hbase Hmax.
  rewrite (fileLine_string_patch f patch max_patch_chars Hpatch), Hbase.
  cbn [mbind outcome_bind]. eexists. split; [reflexivity|].
  pose proof (slice0_length patch max_patch_chars Hmax) as Hcut.
  pose proof (replace_newlines_length (slice0 patch max_patch_chars)) as Hind.
  pose proof (line_breaks_length (slice0 patch max_patch_chars)) as Hbreaks.
  destruct (slice0 patch max_patch_chars) as [|c excerpt] eqn:E; [lia|].
  rewrite !length_app. change (length nl) with 1%nat.
  change (length (lit "  patch:")) with 8%nat. lia.
Qed.

Lemma map_throwing_fileLine_throws include_patches max_patch_chars files f :
  In f files ->
  fileLine include_patches max_patch_chars f = Throw TypeError ->
  map_throwing (fileLine include_patches max_patch_chars) files
    = Throw TypeError.
Proof.
  intros Hin Hf. induction files as [|x files IH]; [destruct Hin|].
  cbn [map_throwing].
  destruct (fileLine include_patches max_patch_chars x) as [y|e|] eqn:Ex.
  - destruct Hin as [->|Hin]; [congruence|].
    cbn [mbind outcome_bind]. now rewrite (IH Hin).
  - apply fileLine_throws in Ex. now subst e.
  - now destruct (fileLine_returns include_patches max_patch_chars x).
Qed.

(** X11. One malformed file record is enough for the whole summary to
    fail: when a record among those collected is [null], or (with patches
    asked for) has a patch that is neither a string nor falsy,
    [github_summarize_pull_request] throws a [TypeError] once the metadata
    and the files have been fetched; the diff is not asked for and no part
    of the report is returned. *)
Theorem summarize_malformed_file
    pr_url include_patches max_files max_patch_chars include_diff max_diff_chars
    ref pr files f (s0 s1 s2 : Net) :
  parsePrUrl pr_url = Ok ref ->
  ghFetchJson (pull_url ref) s0 = (Ok pr, s1) ->
  listPrFilesPaginated (owner ref) (repo ref) (number ref)
    (default 50 max_files) s1 = (Ok files, s2) ->
  In f files ->
  f = JNull \/
  (exists fields v,
      f = JObj fields /\ default true include_patches = true /\
      lookup_field (lit "patch") fields = v /\ ToBoolean v = true /\
      forall s, v <> JStr s) ->
  github_summarize_pull_request pr_url include_patches max_files
    max_patch_chars include_diff max_diff_chars s0 = (Throw TypeError, s2).
Proof.
  intros Href Hpr Hfiles Hin Hbad.
  assert (Hline : fileLine (default true include_patches)
                    (default 2000 max_patch_chars) f = Throw TypeError).
  { destruct Hbad as [->|(fields & v & -> & -> & Hv & Htruthy & Hnot)];
      [reflexivity|].
    unfold fileLine.
    destruct (file_base (JObj fields)) as [base|e|] eqn:Ebase.
    - cbn [mbind outcome_bind negb get]. rewrite Hv, Htruthy.
      destruct v; try reflexivity; try discriminate. now destruct (Hnot s).
    - now rewrite (file_base_throws _ _ Ebase).
    - now destruct (file_base_returns (JObj fields)). }
  unfold github_summarize_pull_request. cbv zeta.
  rewrite run_bind, Href, run_lift.
  rewrite run_bind, Hpr.
  rewrite run_bind, Hfiles.
  rewrite run_bind, (map_throwing_fileLine_throws _ _ _ _ Hin Hline), run_lift.
  reflexivity.
Qed.

(** *** The list tools, the report and the diff *)

Lemma map_throwing_Ok {A B} (f : A -> outcome B) (l : list A) (ys : list B) :
  map_throwing f l = Ok ys -> Forall2 (fun x y => f x = Ok y) l ys.
Proof.
  revert ys. induction l as [|x l IH]; intros ys; cbn [map_throwing].
  - intros [= <-]. constructor.
  - destruct (f x) as [y| |] eqn:Ex; try discriminate.
    cbn [mbind outcome_bind].
    destruct (map_throwing f l) as [ys'| |]; try discriminate.
    intros [= <-]. constructor; auto.
Qed.

Lemma pr_line_hash pr line : pr_line pr = Ok line -> exists rest, line = 35%N :: rest.
Proof.
  unfold pr_line.
  repeat match goal with
         | |- (?c ≫= _) = Ok _ -> _ =>
             destruct c; cbn [mbind outcome_bind]; try discriminate
         end.
  intros [= <-]. eexists. reflexivity.
Qed.

(** X14. For a list of pull requests received from the upstream, the text
    of [github_list_pull_requests], when there is one, has one line for each
    pull request, each beginning with [#]; it is the placeholder [(no PRs)]
    exactly when the list is empty. *)
Theorem github_list_pull_requests_lines
    (owner repo : jstring) (state : option jstring) (per_page : option Z)
    (w w' : World) (resp : Response) (items : list value) (res : ToolResult) :
  upstream (json_request (pulls_url owner repo (default (lit "open") state)
                            (default 30 per_page))) w = (inr resp, w') ->
  ok resp = true ->
  body_json resp = Some (JArr items) ->
  fst (run (github_list_pull_requests owner repo state per_page) w) = Ok res ->
  exists lines,
    Forall2 (fun pr line => pr_line pr = Ok line /\ exists rest, line = 35%N :: rest)
      items lines /\
    (items <> [] -> res = text_result (join nl lines)) /\
    (res = text_result (lit "(no PRs)") <-> items = []).
Proof.
  intros Hup Hok Hbody.
  unfold run, github_list_pull_requests. cbv zeta. rewrite run_bind.
  erewrite ghFetchJson_ok by eauto.
  rewrite run_bind, run_lift. cbn [array_map].
  destruct (map_throwing pr_line items) as [lines| |] eqn:Hlines;
    try discriminate.
  cbn [fst]. intros [= <-]. exists lines.
  apply map_throwing_Ok in Hlines.
  assert (Hall : Forall2 (fun pr line => pr_line pr = Ok line /\
                             exists rest, line = 35%N :: rest) items lines).
  { eapply Forall2_impl; [exact Hlines|]. cbn. intros pr line Hl.
    split; [exact Hl|]. eapply pr_line_hash; eauto. }
  split; [exact Hall|].
  destruct Hall as [|pr line items' lines' [_ [rest ->]] Hrest].
  - split; [congruence|]. split; reflexivity.
  - match goal with
    | |- context [join nl ?l] =>
        assert (Hj : exists rest', join nl l = 35%N :: rest')
          by (destruct lines'; cbn [join]; eexists; reflexivity)
    end.
    destruct Hj as [rest' Hj]. rewrite Hj. cbn [ToBoolean].
    split; [reflexivity|]. split; [|discriminate].
    unfold text_result. intros [= Hno].
Qed.

(** X15. A success response whose JSON is not an array (an object, a
    string, [null]) makes both list tools throw a [TypeError]: there is
    nothing to map over. *)
Theorem list_tools_need_an_array (w w' : World) (resp : Response) (v : value) :
  ok resp = true ->
  body_json resp = Some v ->
  (forall items, v <> JArr items) ->
  (forall visibility per_page,
      upstream
        (json_request
           (searchParams_set (lit "visibility") (default (lit "all") visibility)
              (searchParams_set (lit "per_page")
                 (Z_to_jstring (default 100 per_page))
                 (address (lit "https://api.github.com/user/repos"))))) w
        = (inr resp, w') ->
      fst (run (github_list_repos visibility per_page) w) = Throw TypeError) /\
  (forall owner repo state per_page,
      upstream (json_request (pulls_url owner repo (default (lit "open") state)
                                (default 30 per_page))) w = (inr resp, w') ->
      fst (run (github_list_pull_requests owner repo state per_page) w)
        = Throw TypeError).
Proof.
  intros Hok Hbody Hv. split.
  - intros visibility per_page Hup.
    unfold run, github_list_repos. cbv zeta. rewrite run_bind.
    erewrite ghFetchJson_ok by eauto.
    destruct v; try reflexivity. now destruct (Hv items).
  - intros owner repo state per_page Hup.
    unfold run, github_list_pull_requests. cbv zeta. rewrite run_bind.
    erewrite ghFetchJson_ok by eauto.
    destruct v; try reflexivity. now destruct (Hv items).
Qed.

(** X16. [github_list_repos] gives one line for each repository received,
    ending in [(private)] or [(public)]; for an empty list its text is the
    empty string: unlike [github_list_pull_requests] it has no
    placeholder. *)
Theorem github_list_repos_lines
    (visibility : option jstring) (per_page : option Z)
    (w w' : World) (resp : Response) (items : list value) (res : ToolResult) :
  upstream
    (json_request
       (searchParams_set (lit "visibility") (default (lit "all") visibility)
          (searchParams_set (lit "per_page")
             (Z_to_jstring (default 100 per_page))
             (address (lit "https://api.github.com/user/repos"))))) w
    = (inr resp, w') ->
  ok resp = true ->
  body_json resp = Some (JArr items) ->
  fst (run (github_list_repos visibility per_page) w) = Ok res ->
  exists lines,
    res = text_result (join nl lines) /\
    Forall2 (fun r line =>
               exists full_name name private,
                 get r (lit "full_name") = Ok full_name /\
                 ToString engine full_name = Ok name /\
                 get r (lit "private") = Ok private /\
                 line = name ++
                        (if ToBoolean private then lit " (private)"
                         else lit " (public)"))
      items lines /\
    (items = [] -> res = text_result []).
Proof.
  intros Hup Hok Hbody.
  unfold run, github_list_repos. cbv zeta. rewrite run_bind.
  erewrite ghFetchJson_ok by eauto.
  rewrite run_bind, run_lift. cbn [array_map].
  destruct (map_throwing _ items) as [lines| |] eqn:Hlines; try discriminate.
  cbn [fst]. intros [= <-]. exists lines.
  split; [reflexivity|]. split.
  - apply map_throwing_Ok in Hlines.
    eapply Forall2_impl; [exact Hlines|]. cbv beta. intros r line.
    unfold repo_line, interpolated.
    destruct (get r (lit "full_name")) as [a| |]; try discriminate.
    cbn [mbind outcome_bind].
    destruct (ToString engine a) as [name| |] eqn:Ename; try discriminate.
    cbn [mbind outcome_bind].
    destruct (get r (lit "private")) as [b| |]; try discriminate.
    cbn [mbind outcome_bind]. intros [= <-]. exists a, name, b.
    split; [reflexivity|]. split; [exact Ename|]. split; [reflexivity|].
    destruct (ToBoolean b); reflexivity.
  - intros ->. cbn [map_throwing] in Hlines. now injection Hlines as <-.
Qed.





(** X17. Whatever the cap, even a negative one, the diff part of both
    tools is a prefix of the diff received: truncation cuts at the end and
    changes nothing before the cut. *)
Theorem diff_out_prefix (diff : jstring) (max_diff_chars : Z) :
  exists rest, diff = diff_out diff max_diff_chars ++ rest.
Proof.
  unfold diff_out, slice0.
  destruct (max_diff_chars =? 0).
  - exists []. now rewrite app_nil_r.
  - eexists. symmetry. apply take_drop.
Qed.

(** X18. Whatever the upstream answers, and however long it keeps
    sending full pages, a tool invocation comes to an end: it returns a
    result or throws (the loop over the pages of files stops within
    [max_files] iterations). *)
Theorem tool_invocation_ends (call : ToolCall) (s : Net) :
  (exists res, fst (handle call s) = Ok res) \/
  (exists e, fst (handle call s) = Throw e).
Proof.
  pose proof (handle_returns call s) as H.
  destruct (fst (handle call s)) as [res|e|]; [left|right|]; eauto.
  now destruct H.
Qed.

(** *** Where the errors of a tool come from *)

Lemma failure_of_json u x :
  failure_of (json_request u, x) =
  match x with
  | inl e => Some e
  | inr resp =>
      if negb (ok resp) then Some (GitHubApiError resp)
      else match body_json resp with
           | None => Some SyntaxError
           | Some _ => None
           end
  end.
Proof.
  destruct x as [e|resp]; [reflexivity|]. unfold failure_of. cbn [snd fst].
  destruct (negb (ok resp)); reflexivity.
Qed.

Lemma failure_of_diff u x :
  failure_of (text_request u diff_media_type, x) =
  match x with
  | inl e => Some e
  | inr resp => if negb (ok resp) then Some (GitHubApiError resp) else None
  end.
Proof.
  destruct x as [e|resp]; [reflexivity|]. unfold failure_of. cbn [snd fst].
  destruct (negb (ok resp)); reflexivity.
Qed.

Lemma ghFetchJson_outcome u s r s' :
  ghFetchJson u s = (r, s') ->
  exists x w,
    s' = answered s (json_request u) x w /\
    match failure_of (json_request u, x) with
    | Some e => r = Throw e
    | None => exists v, r = Ok v
    end.
Proof.
  unfold ghFetchJson. rewrite run_bind. unfold fetch.
  destruct (upstream _ _) as [x w]. intros H. exists x, w.
  rewrite failure_of_json.
  destruct x as [e|resp]; [now injection H as <- <-|].
  destruct (negb (ok resp)); [now injection H as <- <-|].
  destruct (body_json resp) as [v|]; injection H as <- <-; eauto.
Qed.

Lemma ghFetchText_outcome u s r s' :
  ghFetchText u diff_media_type s = (r, s') ->
  exists x w,
    s' = answered s (text_request u diff_media_type) x w /\
    match failure_of (text_request u diff_media_type, x) with
    | Some e => r = Throw e
    | None => exists t, r = Ok t
    end.
Proof.
  unfold ghFetchText. rewrite run_bind. unfold fetch.
  destruct (upstream _ _) as [x w]. intros H. exists x, w.
  rewrite failure_of_diff.
  destruct x as [e|resp]; [now injection H as <- <-|].
  destruct (negb (ok resp)); injection H as <- <-; eauto.
Qed.


Lemma sound_log_nil : sound_log [].
Proof. intros entry []. Qed.

Lemma fails_quiet {A} (c : M A) :
  (forall s, log (snd (c s)) = log s) -> fails_with_the_failure c.
Proof.
  intros Hquiet s r s' Hrun Hsound entry e Hin Hfail.
  specialize (Hquiet s). rewrite Hrun in Hquiet. cbn in Hquiet.
  rewrite Hquiet in Hin. apply Hsound in Hin. congruence.
Qed.

Lemma fails_ret {A} (a : A) : fails_with_the_failure (mret a).
Proof. now apply fails_quiet. Qed.

Lemma fails_lift {A} (c : outcome A) : fails_with_the_failure (lift c).
Proof. now apply fails_quiet. Qed.

Lemma fails_bind {A B} (c : M A) (f : A -> M B) :
  fails_with_the_failure c -> (forall a, fails_with_the_failure (f a)) ->
  fails_with_the_failure (c ≫= f).
Proof.
  intros Hc Hf s r s' Hrun Hsound entry e Hin Hfail.
  rewrite run_bind in Hrun.
  destruct (c s) as [[a|e0|] s1] eqn:Ec.
  - eapply (Hf a); eauto.
    intros entry' Hin'.
    destruct (failure_of entry') as [e'|] eqn:Hf'; trivial.
    now destruct (Hc s _ _ Ec Hsound _ _ Hin' Hf').
  - injection Hrun as <- <-.
    destruct (Hc s _ _ Ec Hsound _ _ Hin Hfail) as [Hthrow Hlast].
    split; [now injection Hthrow as ->|exact Hlast].
  - injection Hrun as <- <-.
    now destruct (Hc s _ _ Ec Hsound _ _ Hin Hfail).
Qed.

Lemma fails_one_request {A} (c : M A) req :
  (forall s r s', c s = (r, s') ->
     exists x w, s' = answered s req x w /\
       match failure_of (req, x) with
       | Some e => r = Throw e
       | None => exists v, r = Ok v
       end) ->
  fails_with_the_failure c.
Proof.
  intros Hc s r s' Hrun Hsound entry e Hin Hfail.
  destruct (Hc s r s' Hrun) as (x & w & -> & Hx).
  cbn [answered log] in Hin. apply in_app_or in Hin.
  destruct Hin as [Hin|[<-|[]]].
  - apply Hsound in Hin. congruence.
  - rewrite Hfail in Hx. split; [exact Hx|]. now exists (log s).
Qed.

Lemma fails_ghFetchJson u : fails_with_the_failure (ghFetchJson u).
Proof.
  apply (fails_one_request _ (json_request u)). intros s r s'.
  apply ghFetchJson_outcome.
Qed.

Lemma fails_ghFetchText u :
  fails_with_the_failure (ghFetchText u diff_media_type).
Proof.
  apply (fails_one_request _ (text_request u diff_media_type)). intros s r s'.
  apply ghFetchText_outcome.
Qed.

Lemma fails_push_spread all batch :
  fails_with_the_failure (push_spread all batch).
Proof.
  apply fails_quiet. intros s. unfold push_spread.
  now destruct (_ <? _).
Qed.

Lemma fails_files_loop fuel o r n max_files perPage page all :
  fails_with_the_failure (files_loop fuel o r n max_files perPage page all).
Proof.
  revert page all. induction fuel as [|fuel IH]; intros page all;
    rewrite files_loop_eq;
    destruct (Z.of_nat (length all) <? max_files);
    try apply fails_ret; try (now apply fails_quiet).
  cbv zeta. apply fails_bind; [apply fails_ghFetchJson|].
  intros [| | | | |items|]; try apply fails_ret.
  destruct (Z.of_nat (length items) =? 0); [apply fails_ret|].
  apply fails_bind; [apply fails_push_spread|]. intros all'.
  destruct (Z.of_nat (length items) <? _); [apply fails_ret|apply IH].
Qed.

Lemma fails_listPrFilesPaginated o r n max_files :
  fails_with_the_failure (listPrFilesPaginated o r n max_files).
Proof.
  apply fails_bind; [apply fails_files_loop|]. intros; apply fails_ret.
Qed.

Create HintDb failures.
#[local] Hint Resolve fails_ret fails_lift fails_ghFetchJson fails_ghFetchText
  fails_listPrFilesPaginated : failures.

Lemma fails_handle call : fails_with_the_failure (handle call).
Proof.
  destruct call; cbn [handle];
    [ unfold github_list_repos
    | unfold github_list_pull_requests
    | unfold github_get_pull_request_diff
    | unfold github_summarize_pull_request ];
    cbv zeta;
    repeat (apply fails_bind; [auto with failures|intros ?]);
    auto with failures.
  unfold fetch_diffBlock.
  destruct (default false include_diff); [|auto with failures].
  apply fails_bind; auto with failures.
Qed.









(** X19. Whatever goes wrong with a request during a tool invocation
    (the call is rejected, as when the network fails; the response is not
    ok; the body of a response read as JSON is not JSON), the invocation
    ends with the error of that request: the rejection itself, the GitHub
    API error, or a [SyntaxError]; that request is the last one issued and
    no result is returned. *)
Theorem request_failure_propagates (call : ToolCall) (w : World)
    (r : outcome ToolResult) (net : Net)
    (entry : Request * (exn + Response)) (e : exn) :
  run (handle call) w = (r, net) ->
  In entry (log net) ->
  failure_of entry = Some e ->
  r = Throw e /\ exists before, log net = before ++ [entry].
Proof.
  intros Hrun Hin Hfail.
  eapply (fails_handle call); eauto. apply sound_log_nil.
Qed.


(** X22. A page of file records with more records than the engine lets a
    call take arguments makes [listPrFilesPaginated] throw a [RangeError],
    when it is the first page, right after the request for it: nothing is
    returned, not even the records that would fit under [max_files]. *)
Theorem listPrFilesPaginated_oversized_page
    o r n max_files (w w' : World) resp batch :
  let currentPerPage := Z.min (Z.min 100 (Z.max 1 max_files)) max_files in
  let req := json_request (files_url o r n currentPerPage 1) in
  1 <= max_files ->
  upstream req w = (inr resp, w') ->
  ok resp = true ->
  body_json resp = Some (JArr batch) ->
  max_arguments engine < Z.of_nat (length batch) ->
  run (listPrFilesPaginated o r n max_files) w =
    (Throw RangeError, {| world := w'; log := [(req, inr resp)] |}).
Proof.
  intros cpp req Hmax Hup Hok Hbody Hbig.
  pose proof (max_arguments_hundred engine) as Hhundred.
  unfold run, listPrFilesPaginated. cbv zeta. rewrite run_bind.
  destruct (Z.to_nat max_files) eqn:Efuel; [lia|].
  rewrite files_loop_eq.
  change (Z.of_nat (length (@nil value))) with 0.
  destruct (Z.ltb_spec 0 max_files); [|lia].
  cbv zeta. rewrite run_bind. rewrite Z.sub_0_r.
  erewrite ghFetchJson_ok by eauto.
  assert (E0 : (Z.of_nat (length batch) =? 0) = false)
    by (apply Z.eqb_neq; lia).
  cbv beta iota. rewrite E0, run_bind. unfold push_spread.
  destruct (Z.ltb_spec (max_arguments engine) (Z.of_nat (length batch)));
    [reflexivity|lia].
Qed.

Lemma issues_json_only call :
  wants_diff call = false ->
  issues (fun req => Accept req = lit "application/vnd.github+json")
    (request_budget call) (handle call).
Proof.
  destruct call; cbn [handle request_budget wants_diff]; try discriminate;
    intros Hdiff;
    [ unfold github_list_repos
    | unfold github_list_pull_requests
    | unfold github_summarize_pull_request ];
    cbv zeta.
  - eapply issues_more;
      [|apply issues_bind; [now apply issues_ghFetchJson|];
        intros ?; apply issues_bind; [apply issues_lift|];
        intros ?; apply issues_ret]; lia.
  - eapply issues_more;
      [|apply issues_bind; [now apply issues_ghFetchJson|];
        intros ?; apply issues_bind; [apply issues_lift|];
        intros ?; apply issues_ret]; lia.
  - rewrite Hdiff. unfold fetch_diffBlock.
    eapply issues_more;
      [|apply issues_bind; [apply issues_lift|];
        intros ref; apply issues_bind; [now apply issues_ghFetchJson|];
        intros ?; apply issues_bind;
          [now apply issues_listPrFilesPaginated|];
        intros ?; apply issues_bind; [apply issues_lift|];
        intros ?; apply issues_bind; [apply issues_ret|];
        intros ?; apply issues_bind; [apply issues_lift|];
        intros ?; apply issues_ret]; lia.
Qed.

(** X21. The diff is fetched only when asked for: the list tools, and the
    summary without [include_diff], issue no request other than for
    GitHub's JSON. *)
Theorem diff_fetched_only_when_asked (call : ToolCall) (w : World) :
  wants_diff call = false ->
  Forall (fun e : Request * (exn + Response) =>
            Accept (fst e) = lit "application/vnd.github+json")
    (log (snd (run (handle call) w))).
Proof.
  intros Hdiff. destruct (run (handle call) w) as [r net] eqn:Hrun.
  destruct (issues_json_only call Hdiff _ _ _ Hrun) as (new & Hlog & HQ & _).
  cbn [snd]. rewrite Hlog. exact HQ.
Qed.

End Bridge.

(** *** The collector against an upstream that pages as GitHub does *)

Section Paged.

Variable engine : Engine.
Variable token : jstring.
Variable items : list value.
Variables o r n : option jstring.

Let P := Z.of_nat (length items).

Lemma files_url_params k p :
  searchParams (files_url o r n k p) =
  [(lit "per_page", Z_to_jstring k); (lit "page", Z_to_jstring p)].
Proof. reflexivity. Qed.

Lemma files_url_sizes k p :
  int_param (lit "per_page") 30 (files_url o r n k p) = k /\
  int_param (lit "page") 1 (files_url o r n k p) = p.
Proof.
  unfold int_param. rewrite files_url_params.
  change (param (lit "per_page") _) with (Some (Z_to_jstring k)).
  change (param (lit "page") _) with (Some (Z_to_jstring p)).
  cbv beta iota. now rewrite !jstring_to_Z_to_jstring.
Qed.

Lemma paged_fetch k p (s : @Net unit) :
  ghFetchJson token (paged_upstream items) (files_url o r n k p) s =
  (Ok (JArr (page_of items k p)),
   answered s (json_request token (files_url o r n k p))
     (inr (page_response items k p)) tt).
Proof.
  apply ghFetchJson_ok; try reflexivity.
  unfold paged_upstream. cbn [url json_request].
  destruct (files_url_sizes k p) as [-> ->]. reflexivity.
Qed.

(** The loop after [j] full pages of size [S], with [max_files = S * q]. *)
Lemma files_loop_paged (S q : Z) (fuel : nat) :
  forall (j : Z) (s : @Net unit),
    1 <= S <= 100 -> 0 <= j <= q -> j * S <= P -> q - j <= Z.of_nat fuel ->
    exists s',
      files_loop engine token (paged_upstream items) fuel o r n (S * q) S (j + 1)
        (take (Z.to_nat (j * S)) items) s =
        (Ok (take (Z.to_nat (Z.min P (S * q))) items), s') /\
      Z.of_nat (length (log s')) =
        Z.of_nat (length (log s)) +
        (if P <? S * q then P / S + 1 else q) - j.
Proof.
  induction fuel as [|fuel IH]; intros j s HS Hj HjP Hfuel;
    rewrite files_loop_eq;
    (assert (Hlen : Z.of_nat (length (take (Z.to_nat (j * S)) items)) = j * S)
      by (rewrite length_take; unfold P in *; lia));
    rewrite Hlen;
    destruct (Z.ltb_spec (j * S) (S * q)) as [Hlt|Hge].
  - nia.
  - exists s.
    assert (j = q)
      by (destruct (Z.eq_dec j q); trivial;
          assert (0 <= (q - j - 1) * (S - 1))
            by (apply Z.mul_nonneg_nonneg; lia); lia).
    subst j.
    destruct (Z.ltb_spec P (S * q)); [lia|].
    split; [|lia].
    unfold mret, M_ret. do 3 f_equal. lia.
  - cbv zeta. rewrite run_bind.
    assert (Hjq : j < q) by nia.
    assert (Hcpp : Z.min S (S * q - j * S) = S)
      by (assert (0 <= (q - j - 1) * S)
            by (apply Z.mul_nonneg_nonneg; lia); lia).
    rewrite Hcpp, paged_fetch.
    set (batch := page_of items S (j + 1)).
    assert (Hbatch : batch = take (Z.to_nat S) (drop (Z.to_nat (j * S)) items)).
    { unfold batch, page_of. do 3 f_equal. lia. }
    assert (Hblen : Z.of_nat (length batch) = Z.min S (P - j * S)).
    { rewrite Hbatch, length_take, length_drop. unfold P. lia. }
    assert (Happ : take (Z.to_nat (j * S)) items ++ batch =
                   take (Z.to_nat ((j + 1) * S)) items).
    { rewrite Hbatch, take_take_drop. f_equal. lia. }
    set (s1 := answered s (json_request token (files_url o r n S (j + 1)))
                 (inr (page_response items S (j + 1))) tt).
    assert (Hlog : Z.of_nat (length (log s1)) = Z.of_nat (length (log s)) + 1)
      by (unfold s1, answered; cbn [log]; rewrite length_app; cbn [length]; lia).
    cbv beta iota.
    destruct (Z.eqb_spec (Z.of_nat (length batch)) 0) as [Hz|Hnz].
    + (* the page is empty: the upstream is exhausted *)
      exists s1.
      assert (HP : P = j * S) by lia.
      assert (P / S = j) by (rewrite HP; apply Z.div_mul; lia).
      destruct (Z.ltb_spec P (S * q)); [|lia].
      split; [|lia].
      unfold mret, M_ret. f_equal. f_equal.
      rewrite !take_ge; trivial; unfold P in *; lia.
    + rewrite run_bind, (push_spread_page _ _ _ _ S) by lia.
      destruct (Z.ltb_spec (Z.of_nat (length batch)) S) as [Hshort|Hfull].
      * (* a short page: the last one *)
        exists s1.
        assert (P / S = j)
          by (symmetry; apply (Z.div_unique P S j (P - j * S)); lia).
        assert (P < (j + 1) * S) by lia.
        assert ((j + 1) * S <= S * q)
          by (assert (0 <= (q - j - 1) * S)
                by (apply Z.mul_nonneg_nonneg; lia); lia).
        destruct (Z.ltb_spec P (S * q)); [|lia].
        split; [|lia].
        unfold mret, M_ret. f_equal. f_equal.
        rewrite Happ, !take_ge; trivial; unfold P in *; lia.
      * (* a full page: go on *)
        rewrite Happ.
        destruct (IH (j + 1) s1) as (s' & Hrun & Hcount); try lia.
        exists s'. split; [exact Hrun|].
        rewrite Hcount. lia.
  - exists s.
    assert (j = q)
      by (destruct (Z.eq_dec j q); trivial;
          assert (0 <= (q - j - 1) * (S - 1))
            by (apply Z.mul_nonneg_nonneg; lia); lia).
    subst j.
    destruct (Z.ltb_spec P (S * q)); [lia|].
    split; [|lia].
    unfold mret, M_ret. do 3 f_equal. lia.
Qed.

End Paged.

Lemma ceil_div_exact (S k : Z) : 1 <= S -> ceil_div (S * k) S = k.
Proof.
  intros HS. unfold ceil_div. symmetry.
  apply (Z.div_unique (S * k + S - 1) S k (S - 1)); lia.
Qed.

Lemma ceil_div_inexact (a S : Z) :
  1 <= S -> a mod S <> 0 -> ceil_div a S = a / S + 1.
Proof.
  intros HS Hrem. unfold ceil_div. symmetry.
  pose proof (Z.div_mod a S ltac:(lia)).
  pose proof (Z.mod_pos_bound a S ltac:(lia)).
  apply (Z.div_unique (a + S - 1) S (a / S + 1) (a mod S - 1)); lia.
Qed.

(** The requests the collector needs for [P] records under a cap
    [S * q]: those that carry the records it returns, and one more to find
    out that a source whose last page was full has no further page. *)
Lemma request_count (P S q : Z) :
  1 <= S -> 0 <= P ->
  (if P <? S * q then P / S + 1 else q) =
  ceil_div (Z.min P (S * q)) S +
  (if (P <? S * q) && (P mod S =? 0) then 1 else 0).
Proof.
  intros HS HP.
  destruct (Z.ltb_spec P (S * q)); cbn [andb].
  - rewrite Z.min_l by lia.
    destruct (Z.eqb_spec (P mod S) 0) as [Hz|Hnz].
    + apply Z.mod_divide in Hz; [|lia]. destruct Hz as [k ->].
      rewrite (Z.mul_comm k S), ceil_div_exact by lia.
      rewrite (Z.mul_comm S k), Z.div_mul by lia. reflexivity.
    + rewrite ceil_div_inexact by lia. lia.
  - rewrite Z.min_r by lia. rewrite ceil_div_exact by lia. lia.
Qed.

(** C1 (amended).  With [max_files >= 1], whatever the upstream answers, the
    sequence [listPrFilesPaginated] returns is no longer than [max_files].
    Against an upstream that holds [P] records and serves page [p] of size
    [k] as the records from [(p-1)*k] up to [p*k], and for a [max_files]
    that is a whole number of pages of size [S = min(100, max_files)], it
    returns exactly the first [min(P, max_files)] records and issues
    [ceil(min(P, max_files) / S)] requests, plus one when the source ran out
    on a full page ([P < max_files] and [S] divides [P], [P = 0]
    included): the request that finds the empty page. *)
Theorem listPrFilesPaginated_pages (engine : Engine) (token : jstring)
    (o r n : option jstring) (max_files : Z) :
  1 <= max_files ->
  (forall (World : Type) (upstream : Request -> World -> (exn + Response) * World)
          (s s' : Net) (files : list value),
      listPrFilesPaginated engine token upstream o r n max_files s
        = (Ok files, s') ->
      Z.of_nat (length files) <= max_files) /\
  (max_files mod Z.min 100 max_files = 0 ->
   forall items : list value,
     let P := Z.of_nat (length items) in
     let S := Z.min 100 max_files in
     exists net,
       run (listPrFilesPaginated engine token (paged_upstream items) o r n
              max_files) tt
         = (Ok (take (Z.to_nat (Z.min P max_files)) items), net) /\
       Z.of_nat (length (take (Z.to_nat (Z.min P max_files)) items))
         = Z.min P max_files /\
       Z.of_nat (length (log net))
         = ceil_div (Z.min P max_files) S +
           (if (P <? max_files) && (P mod S =? 0) then 1 else 0)).
Proof.
  intros Hmax. split.
  - intros World upstream s s' files Hrun.
    eapply listPrFilesPaginated_bounded; [|exact Hrun]. lia.
  - intros Hdiv items P S.
    assert (HS : 1 <= S) by (unfold S; lia).
    assert (Hq : max_files = S * (max_files / S))
      by (apply Z.div_exact; [lia|exact Hdiv]).
    set (q := max_files / S) in *.
    assert (1 <= q) by nia.
    destruct (files_loop_paged engine token items o r n S q
                (Z.to_nat max_files) 0
                {| world := tt; log := [] |})
      as (net & Hloop & Hcount); try lia; try (unfold P; lia); try nia.
    exists net. split; [|split].
    + unfold run, listPrFilesPaginated. cbv zeta. rewrite run_bind.
      replace (Z.min 100 (Z.max 1 max_files)) with S by (unfold S; lia).
      change (Z.to_nat (0 * S)) with 0%nat in Hloop.
      rewrite take_0, <- Hq in Hloop. change (0 + 1) with 1 in Hloop.
      rewrite Hloop. unfold mret, M_ret. f_equal. f_equal.
      apply slice0_all. rewrite length_take. lia.
    + rewrite length_take. unfold P. lia.
    + rewrite Hcount. cbn [log length]. rewrite <- Hq.
      rewrite Hq at 1 2 3. rewrite <- request_count; unfold P; lia.
Qed.

(** C1, witness: a cap of 200 against 150 records is two pages of 100. *)
Lemma listPrFilesPaginated_pages_witness :
  1 <= 200 /\ 200 mod Z.min 100 200 = 0 /\
  exists net,
    run (listPrFilesPaginated example_engine [] (paged_upstream (numbered 150))
           (Some (lit "acme")) (Some (lit "widgets")) (Some (lit "42")) 200) tt
      = (Ok (take (Z.to_nat (Z.min 150 200)) (numbered 150)), net) /\
    Z.of_nat (length (log net)) = 2.
Proof.
  split; [lia|]. split; [reflexivity|].
  destruct (proj2 (listPrFilesPaginated_pages example_engine []
                     (Some (lit "acme")) (Some (lit "widgets"))
                     (Some (lit "42")) 200 ltac:(lia))
              eq_refl (numbered 150))
    as (net & Hrun & _ & Hcount).
  exists net. split; [exact Hrun|exact Hcount].
Defined.

(** C1 as stated fails on a pull request without files: the collector
    returns the empty sequence, but it has asked for a page to learn that,
    where the claim counts [ceil(min(0, 1) / S) = 0] requests, whatever the
    page size [S]. *)
Lemma listPrFilesPaginated_empty_source_one_request :
  let res := run (listPrFilesPaginated example_engine [] (paged_upstream [])
                    (Some (lit "acme")) (Some (lit "widgets"))
                    (Some (lit "42")) 1) tt in
  fst res = Ok [] /\
  Z.of_nat (length (log (snd res))) = 1 /\
  forall S, 1 <= S ->
    Z.of_nat (length (log (snd res))) <> ceil_div (Z.min 0 1) S.
Proof.
  split; [reflexivity|]. split; [reflexivity|].
  intros S HS. change (Z.of_nat _) with 1. change (Z.min 0 1) with 0.
  unfold ceil_div. rewrite Z.div_small; lia.
Qed.

(** Outside the whole-pages case the second request changes the page size,
    and with it the records GitHub counts as page 2: a cap of 150 against
    120 records asks for page 1 of size 100 and page 2 of size 50, and
    returns 150 records, the records 50 to 99 twice. *)
Lemma listPrFilesPaginated_uneven_last_page :
  let res := run (listPrFilesPaginated example_engine []
                    (paged_upstream (numbered 120))
                    (Some (lit "acme")) (Some (lit "widgets"))
                    (Some (lit "42")) 150) tt in
  fst res = Ok (numbered 100 ++ drop 50 (numbered 100)) /\
  length (log (snd res)) = 2%nat.
Proof. split; vm_compute; reflexivity. Qed.

(* ===================================================================== *)
(** ** The theorems at work on the test doubles *)
(* ===================================================================== *)

(** C2, witness: the pull request 7 of a repository [acme/pull]. *)
Lemma parsePrUrl_rejects_repo_named_pull_witness :
  simple_new_URL (lit "https://github.com/acme/pull/pull/7") =
    Some {| hostname := lit "github.com"; pathname := lit "/acme/pull/pull/7" |} /\
  parsePrUrl simple_new_URL (lit "https://github.com/acme/pull/pull/7") =
    Throw InvalidPrUrl.
Proof.
  split; [reflexivity|].
  apply (parsePrUrl_rejects_repo_named_pull simple_new_URL). reflexivity.
Defined.

(** C5, witness: three records where up to ten were asked for. *)
Lemma listPrFilesPaginated_short_first_page_witness :
  run (listPrFilesPaginated example_engine [] (paged_upstream (numbered 3))
         (Some (lit "acme")) (Some (lit "widgets")) (Some (lit "42")) 10) tt =
    (Ok (numbered 3),
     {| world := tt;
        log := [ (json_request []
                    (files_url (Some (lit "acme")) (Some (lit "widgets"))
                       (Some (lit "42")) 10 1),
                  inr {| status := 200; body_text := [];
                         body_json := Some (JArr (numbered 3)) |}) ] |}).
Proof.
  apply (listPrFilesPaginated_short_first_page example_engine []
           (paged_upstream (numbered 3))
           (Some (lit "acme")) (Some (lit "widgets")) (Some (lit "42")) 10
           tt tt
           {| status := 200; body_text := [];
              body_json := Some (JArr (numbered 3)) |} (numbered 3)).
  - reflexivity.
  - reflexivity.
  - reflexivity.
  - discriminate.
  - vm_compute. reflexivity.
Defined.

(** C7, witness: GitHub answers 404 to the three kinds of call. *)
Lemma upstream_failure_propagates_witness :
  ok not_found = false /\
  fst (ghFetchJson [] (constant_upstream not_found)
         (address (lit "https://api.github.com/user/repos"))
         {| world := tt; log := [] |}) =
    Throw (Error (lit "GitHub API error 404: Not Found")) /\
  fst (ghFetchText [] (constant_upstream not_found)
         (address (lit "https://api.github.com/repos/acme/widgets/pulls/42"))
         diff_media_type {| world := tt; log := [] |}) =
    Throw (Error (lit "GitHub API error 404: Not Found")) /\
  fst (run (handle example_engine [] simple_new_URL
              (constant_upstream not_found)
              (SummarizePullRequest scenario_url None None None None None)) tt) =
    Throw (Error (lit "GitHub API error 404: Not Found")).
Proof.
  destruct (upstream_failure_propagates example_engine [] simple_new_URL
              (constant_upstream not_found)) as (Hjson & Htext & Hcall).
  split; [reflexivity|]. split; [|split].
  - rewrite (Hjson _ {| world := tt; log := [] |} not_found tt);
      reflexivity.
  - rewrite (Htext _ _ {| world := tt; log := [] |} not_found tt);
      reflexivity.
  - set (res := run (handle example_engine [] simple_new_URL
                       (constant_upstream not_found)
                       (SummarizePullRequest scenario_url None None None None None))
                  tt).
    apply (Hcall (SummarizePullRequest scenario_url None None None None None)
             tt (fst res) (snd res)
             (json_request []
                (address (lit "https://api.github.com/repos/acme/widgets/pulls/42")))
             not_found).
    + reflexivity.
    + left. reflexivity.
    + reflexivity.
Defined.

(** C8, witness: a repository without pull requests. *)
Lemma github_list_pull_requests_empty_witness :
  fst (run (github_list_pull_requests example_engine []
              (constant_upstream no_pull_requests)
              (lit "acme") (lit "widgets") None None) tt) =
    Ok {| content := [ {| type := lit "text"; text := lit "(no PRs)" |} ] |}.
Proof.
  apply (github_list_pull_requests_empty example_engine []
           (constant_upstream no_pull_requests)
           (lit "acme") (lit "widgets") None None tt tt no_pull_requests);
    reflexivity.
Defined.

(** C9, witness: pull request 5 of a repository [acme/pull] is refused,
    and with other names for the owner and the repository the segments
    between the repository and [pull], and after the number, are passed
    over. *)
Lemma parsePrUrl_pull_at_owner_or_repo_witness :
  parsePrUrl simple_new_URL (lit "https://github.com/acme/pull/pull/5") =
    Throw InvalidPrUrl /\
  parsePrUrl simple_new_URL (lit "https://github.com/a/b/c/pull/5/files") =
    Ok {| owner := Some (lit "a"); repo := Some (lit "b");
          number := Some (lit "5") |}.
Proof.
  split.
  - apply (proj1 (parsePrUrl_pull_at_owner_or_repo simple_new_URL
                    (lit "https://github.com/acme/pull/pull/5")
                    {| hostname := lit "github.com";
                       pathname := lit "/acme/pull/pull/5" |}
                    2 (lit "5") eq_refl eq_refl ltac:(lia) eq_refl eq_refl)).
    right. reflexivity.
  - destruct (proj2 (parsePrUrl_pull_at_owner_or_repo simple_new_URL
                       (lit "https://github.com/a/b/c/pull/5/files")
                       {| hostname := lit "github.com";
                          pathname := lit "/a/b/c/pull/5/files" |}
                       3 (lit "5") eq_refl eq_refl ltac:(lia) eq_refl eq_refl)
                ltac:(discriminate) ltac:(discriminate))
      as (o & r & j & num & Ho & Hr & Hj & Hpull & _ & Hnum & Hparse).
    injection Ho as <-. injection Hr as <-.
    assert (j = 3%nat) as ->.
    { destruct j as [|[|[|[|j]]]]; try lia; try reflexivity.
      vm_compute in Hpull. discriminate. }
    injection Hnum as <-. exact Hparse.
Defined.

(** C10, witness: the first file of the scenario, capped at 0 and at 20. *)
Lemma patch_excerpt_cap_witness :
  let f := file_record "src/widget.js" 8 3 "modified"
             (lit "@@ -1,2 +1,2 @@" ++ nl ++ lit "-old" ++ nl ++ lit "+new") in
  fileLine example_engine true 0 f =
    Ok (lit "- src/widget.js (+8/-3) [modified]") /\
  fileLine example_engine true 20 f =
    Ok (lit "- src/widget.js (+8/-3) [modified]" ++ nl ++ lit "  patch:" ++ nl ++
        lit "@@ -1,2 +1,2 @@" ++ nl ++ lit "  -old") /\
  Z.of_nat (length (lit "@@ -1,2 +1,2 @@" ++ nl ++ lit "  -old")) = 20 + 2 * 1.
Proof.
  intros f.
  destruct (patch_excerpt_cap example_engine f
              (lit "@@ -1,2 +1,2 @@" ++ nl ++ lit "-old" ++ nl ++ lit "+new")
              (lit "- src/widget.js (+8/-3) [modified]")
              eq_refl eq_refl) as (Hzero & Hcap).
  split; [exact Hzero|].
  destruct (Hcap 20 ltac:(lia)) as (_ & Hline & Hlen & _).
  split; [exact Hline|exact Hlen].
Defined.

(** C10 as stated fails: under a cap of 20 the excerpt of the first file of
    the scenario, as emitted after [patch:], has 22 units, the 20 taken from
    the patch and the two spaces that indent its second line. *)
Lemma patch_excerpt_emitted_beyond_cap :
  let f := file_record "src/widget.js" 8 3 "modified"
             (lit "@@ -1,2 +1,2 @@" ++ nl ++ lit "-old" ++ nl ++ lit "+new") in
  let emitted := lit "@@ -1,2 +1,2 @@" ++ nl ++ lit "  -old" in
  fileLine example_engine true 20 f =
    Ok (lit "- src/widget.js (+8/-3) [modified]" ++ nl ++ lit "  patch:" ++ nl ++
        emitted) /\
  length emitted = 22%nat /\
  ~ Z.of_nat (length emitted) <= 20.
Proof. repeat split. intros H. vm_compute in H. now apply H. Qed.

(** C3, witness: the diff of the scenario, 46 units long, capped at 10, in
    both tools. *)
Lemma diff_truncation_witness :
  0 < 10 /\ 10 < Z.of_nat (length scenario_diff) /\
  fst (run (github_get_pull_request_diff [] simple_new_URL scenario_upstream
              scenario_url (Some 10)) tt) =
    Ok (text_result
          (lit "PR Diff (unified) for https://github.com/acme/widgets/pull/42" ++
           nl ++ lit "(truncado a 10 chars de 46)" ++ nl ++ nl ++
           lit "diff --git")) /\
  exists report,
    fst (run (github_summarize_pull_request example_engine [] simple_new_URL
                scenario_upstream
                scenario_url None None None (Some true) (Some 10)) tt) =
      Ok (text_result
            (summary_instructions ++ report ++ nl ++ nl ++
             lit "Unified diff (global):" ++ nl ++
             lit "(truncado a 10 chars de 46)" ++ nl ++ lit "diff --git")).
Proof.
  destruct (diff_truncation example_engine [] simple_new_URL scenario_upstream
              scenario_diff 10)
    as (Hget & Hsum & Hcut & _ & _).
  destruct (Hcut ltac:(lia) eq_refl) as (Hout & _ & Hn1 & Hn2).
  split; [lia|]. split; [reflexivity|]. split.
  - unfold run. erewrite Hget by reflexivity.
    rewrite Hn1, Hout. reflexivity.
  - eexists. unfold run. erewrite Hsum by reflexivity.
    rewrite Hn2, Hout. reflexivity.
Defined.

(** C4, witness: the scenario, with its two file records and no diff
    asked for. *)
Lemma github_summarize_pull_request_scenario_witness :
  exists fileLines,
    map_throwing (fileLine example_engine true 2000) scenario_files
      = Ok fileLines /\
    fst (run (github_summarize_pull_request example_engine [] simple_new_URL
                scenario_upstream
                scenario_url None None None None None) tt) =
      Ok (text_result
            (summary_instructions ++
             lit "PR: https://github.com/acme/widgets/pull/42" ++ nl ++
             lit "Title: Fix bug" ++ nl ++
             lit "Author: alice" ++ nl ++
             lit "State: open | Draft: no | Merged: no" ++ nl ++
             lit "Base: main <- Head: fix" ++ nl ++
             lit "Commits: 3 | Files changed: 2 | Additions: 10 | Deletions: 4" ++
             nl ++ nl ++
             lit "Description (body):" ++ nl ++
             lit "Fixes #1" ++ nl ++ nl ++
             lit "Changed files (up to 50):" ++ nl ++
             join (nl ++ nl) fileLines)).
Proof.
  eexists. split; [reflexivity|].
  unfold run.
  erewrite (github_summarize_pull_request_scenario example_engine []
              simple_new_URL
              scenario_upstream scenario_url None None None None None)
    by reflexivity.
  reflexivity.
Defined.

(** C4 as stated fails: the text of the scenario begins with the sentence
    of instructions, not with the line [PR: ...]. *)
Lemma github_summarize_pull_request_begins_with_instructions :
  exists t,
    fst (run (github_summarize_pull_request example_engine [] simple_new_URL
                scenario_upstream
                scenario_url None None None None None) tt) =
      Ok (text_result t) /\
    starts_with (lit "PR: https://github.com/acme/widgets/pull/42") t = false /\
    starts_with (lit "Us" ++ a_acute ++ lit " el siguiente material") t = true.
Proof. eexists. split; [vm_compute; reflexivity|]. split; reflexivity. Qed.

(* ===================================================================== *)
(** ** Further properties at work on the test doubles *)
(* ===================================================================== *)

(** X1, witness: the address of the scenario. *)
Lemma parsePrUrl_sound_witness :
  exists (u : URL) (i : nat) (O R N : jstring),
    simple_new_URL scenario_url = Some u /\
    hostname u = lit "github.com" /\
    (2 <= i)%nat /\
    segments (pathname u) !! 0%nat = Some O /\
    segments (pathname u) !! 1%nat = Some R /\
    segments (pathname u) !! i = Some (lit "pull") /\
    (forall j, (j < i)%nat -> segments (pathname u) !! j <> Some (lit "pull")) /\
    segments (pathname u) !! (i + 1)%nat = Some N /\
    {| owner := Some (lit "acme"); repo := Some (lit "widgets");
       number := Some (lit "42") |} =
      {| owner := Some O; repo := Some R; number := Some N |} /\
    Forall (fun s : jstring => s <> [] /\ Forall (fun c => c <> 47%N) s)
      [O; R; N] /\
    resource (pull_url {| owner := Some (lit "acme");
                          repo := Some (lit "widgets");
                          number := Some (lit "42") |}) =
      lit "https://api.github.com/repos/" ++ O ++ lit "/" ++ R ++
      lit "/pulls/" ++ N.
Proof.
  exact (parsePrUrl_sound simple_new_URL scenario_url
           {| owner := Some (lit "acme"); repo := Some (lit "widgets");
              number := Some (lit "42") |} eq_refl).
Defined.

(** X2, witness: a pull request address of another host. *)
Lemma parsePrUrl_rejects_witness :
  parsePrUrl simple_new_URL (lit "https://gitlab.com/acme/widgets/pull/42") =
    Throw InvalidPrUrl.
Proof.
  apply (parsePrUrl_rejects simple_new_URL
           (lit "https://gitlab.com/acme/widgets/pull/42")
           {| hostname := lit "gitlab.com";
              pathname := lit "/acme/widgets/pull/42" |} eq_refl).
  left. discriminate.
Defined.

(** X3, witness: the address of the scenario, from its parts. *)
Lemma parsePrUrl_canonical_witness :
  parsePrUrl simple_new_URL scenario_url =
    Ok {| owner := Some (lit "acme"); repo := Some (lit "widgets");
          number := Some (lit "42") |}.
Proof.
  apply (parsePrUrl_canonical simple_new_URL scenario_url
           (lit "acme") (lit "widgets") (lit "42") eq_refl);
    try (repeat constructor; discriminate); discriminate.
Defined.

(** X4, witness: a path without [pull], and a string that is no URL. *)
Lemma invalid_pr_url_no_request_witness :
  run (github_summarize_pull_request example_engine [] simple_new_URL
         scenario_upstream
         (lit "https://github.com/acme/widgets/issues/42")
         None None None None None) tt =
    (Throw InvalidPrUrl, {| world := tt; log := [] |}) /\
  run (github_get_pull_request_diff [] simple_new_URL scenario_upstream
         (lit "acme/widgets#42") None) tt =
    (Throw TypeError, {| world := tt; log := [] |}).
Proof.
  split.
  - apply (invalid_pr_url_no_request example_engine [] simple_new_URL
             scenario_upstream
             (lit "https://github.com/acme/widgets/issues/42") InvalidPrUrl tt
             eq_refl).
  - apply (invalid_pr_url_no_request example_engine [] simple_new_URL
             scenario_upstream
             (lit "acme/widgets#42") TypeError tt eq_refl).
Defined.

(** X6, witness: the summary of the scenario, diff included, stays within
    the five requests. *)
Lemma request_count_bounded_witness :
  (length (log (snd (run (handle example_engine [] simple_new_URL
                            scenario_upstream
                            (SummarizePullRequest scenario_url None None None
                               (Some true) None)) tt))) <= 5)%nat.
Proof.
  destruct (request_count_bounded example_engine [] simple_new_URL
              scenario_upstream
              (SummarizePullRequest scenario_url None None None (Some true) None)
              tt) as [Hlen Hbudget].
  destruct (Hbudget _ _ _ _ _ _ eq_refl) as [Hfive _].
  exact (Nat.le_trans _ _ _ Hlen (Hfive ltac:(cbn; lia))).
Defined.

(** X8, witness: 150 records under a cap of 200 come back as received, in
    two pages. *)
Lemma listPrFilesPaginated_in_order_witness :
  exists new,
    length new = 2%nat /\
    numbered 150 = slice0 (flat_map records_of new) 200.
Proof.
  set (res := run (listPrFilesPaginated example_engine []
                     (paged_upstream (numbered 150))
                     (Some (lit "acme")) (Some (lit "widgets"))
                     (Some (lit "42")) 200) tt).
  assert (Hrun : listPrFilesPaginated example_engine []
                   (paged_upstream (numbered 150))
                   (Some (lit "acme")) (Some (lit "widgets"))
                   (Some (lit "42")) 200 {| world := tt; log := [] |} =
                 (Ok (numbered 150), snd res))
    by (vm_compute; reflexivity).
  destruct (listPrFilesPaginated_in_order example_engine []
              (paged_upstream (numbered 150))
              (Some (lit "acme")) (Some (lit "widgets")) (Some (lit "42"))
              200 _ _ _ Hrun) as (new & Hlog & Hfiles).
  exists new. split; [|exact Hfiles].
  cbn [log app] in Hlog. rewrite <- Hlog. vm_compute. reflexivity.
Defined.

(** X9, witness: GitHub answers the first page with an object. *)
Lemma listPrFilesPaginated_no_records_witness :
  run (listPrFilesPaginated example_engine [] (constant_upstream not_a_list)
         (Some (lit "acme")) (Some (lit "widgets")) (Some (lit "42")) 50) tt =
    (Ok [],
     {| world := tt;
        log := [ (json_request []
                    (files_url (Some (lit "acme")) (Some (lit "widgets"))
                       (Some (lit "42")) 50 1),
                  inr not_a_list) ] |}).
Proof.
  apply (listPrFilesPaginated_no_records example_engine []
           (constant_upstream not_a_list)
           (Some (lit "acme")) (Some (lit "widgets")) (Some (lit "42")) 50
           tt tt not_a_list
           (JObj [ (lit "message", JStr (lit "Moved")) ]));
    try reflexivity; try lia.
  discriminate.
Defined.

(** X10, witness: a binary file; and a file whose name cannot be printed,
    whose line fails like its base line. *)
Lemma fileLine_without_patch_witness :
  fileLine example_engine true 2000 (JObj binary_file_fields) =
    Ok (lit "- logo.png (+0/-0) [added]") /\
  fileLine example_engine true 2000 (JObj unprintable_file_fields) =
    Throw TypeError.
Proof.
  split.
  - rewrite (proj2 (fileLine_without_patch example_engine
                      (JObj binary_file_fields))
               JUndefined eq_refl eq_refl true 2000).
    reflexivity.
  - rewrite (proj2 (fileLine_without_patch example_engine
                      (JObj unprintable_file_fields))
               JUndefined eq_refl eq_refl true 2000).
    reflexivity.
Defined.

(** X11, witness: a [null] among the file records. *)
Lemma summarize_malformed_file_witness :
  fst (run (github_summarize_pull_request example_engine [] simple_new_URL
              (pull_request_upstream scenario_pr
                 (scenario_files ++ [JNull]) scenario_diff)
              scenario_url None None None (Some true) None) tt) =
    Throw TypeError /\
  length (log (snd (run (github_summarize_pull_request example_engine []
                           simple_new_URL
                           (pull_request_upstream scenario_pr
                              (scenario_files ++ [JNull]) scenario_diff)
                           scenario_url None None None (Some true) None) tt)))
    = 2%nat.
Proof.
  unfold run.
  erewrite (summarize_malformed_file example_engine [] simple_new_URL
              (pull_request_upstream scenario_pr (scenario_files ++ [JNull])
                 scenario_diff)
              scenario_url None None None (Some true) None _ _
              (scenario_files ++ [JNull]) JNull);
    [ | reflexivity | reflexivity | reflexivity
      | apply in_or_app; right; left; reflexivity
      | left; reflexivity ].
  split; reflexivity.
Defined.

(** X12, witness: the first file of the scenario under a cap of 20. *)
Lemma fileLine_length_bounded_witness :
  let f := file_record "src/widget.js" 8 3 "modified"
             (lit "@@ -1,2 +1,2 @@" ++ nl ++ lit "-old" ++ nl ++ lit "+new") in
  let base := lit "- src/widget.js (+8/-3) [modified]" in
  exists line,
    fileLine example_engine true 20 f = Ok line /\
    Z.of_nat (length base) <= Z.of_nat (length line) /\
    Z.of_nat (length line) <= Z.of_nat (length base) + 10 + 3 * 20.
Proof.
  intros f base.
  exact (fileLine_length_bounded example_engine f
           (lit "@@ -1,2 +1,2 @@" ++ nl ++ lit "-old" ++ nl ++ lit "+new")
           base 20 eq_refl eq_refl ltac:(lia)).
Defined.


(** X14, witness: a repository with two pull requests. *)
Lemma github_list_pull_requests_lines_witness :
  exists lines,
    Forall2 (fun pr line => pr_line example_engine pr = Ok line /\
                            exists rest, line = 35%N :: rest)
      [ pull_request_entry 42 "Fix bug" "alice";
        pull_request_entry 41 "Add docs" "bob" ] lines /\
    fst (run (github_list_pull_requests example_engine []
                (constant_upstream two_pull_requests)
                (lit "acme") (lit "widgets") None None) tt) =
      Ok (text_result (join nl lines)).
Proof.
  set (res := text_result
                (lit "#42 Fix bug " ++ em_dash ++ lit " alice " ++ em_dash ++
                 lit " https://github.com/acme/widgets/pull/42" ++ nl ++
                 lit "#41 Add docs " ++ em_dash ++ lit " bob " ++ em_dash ++
                 lit " https://github.com/acme/widgets/pull/41")).
  destruct (github_list_pull_requests_lines example_engine []
              (constant_upstream two_pull_requests)
              (lit "acme") (lit "widgets") None None tt tt two_pull_requests
              _ res eq_refl eq_refl eq_refl eq_refl)
    as (lines & Hlines & Hsome & _).
  exists lines. split; [exact Hlines|].
  rewrite <- Hsome by discriminate. reflexivity.
Defined.

(** X15, witness: an object where a list was expected. *)
Lemma list_tools_need_an_array_witness :
  fst (run (github_list_repos example_engine [] (constant_upstream not_a_list)
              None None) tt)
    = Throw TypeError /\
  fst (run (github_list_pull_requests example_engine []
              (constant_upstream not_a_list)
              (lit "acme") (lit "widgets") None None) tt) = Throw TypeError.
Proof.
  destruct (list_tools_need_an_array example_engine []
              (constant_upstream not_a_list) tt tt
              not_a_list (JObj [ (lit "message", JStr (lit "Moved")) ])
              eq_refl eq_refl ltac:(discriminate)) as [Hrepos Hpulls].
  split; [apply Hrepos|apply Hpulls]; reflexivity.
Defined.

(** X16, witness: two repositories, one of them private. *)
Lemma github_list_repos_lines_witness :
  fst (run (github_list_repos example_engine []
              (constant_upstream two_repositories) None None) tt) =
    Ok (text_result (lit "acme/widgets (public)" ++ nl ++
                     lit "acme/vault (private)")) /\
  exists lines,
    text_result (lit "acme/widgets (public)" ++ nl ++
                 lit "acme/vault (private)") = text_result (join nl lines) /\
    length lines = 2%nat.
Proof.
  split; [reflexivity|].
  destruct (github_list_repos_lines example_engine []
              (constant_upstream two_repositories)
              None None tt tt two_repositories _
              (text_result (lit "acme/widgets (public)" ++ nl ++
                            lit "acme/vault (private)"))
              eq_refl eq_refl eq_refl eq_refl)
    as (lines & Hres & Hall & _).
  exists lines. split; [exact Hres|].
  apply Forall2_length in Hall. symmetry. exact Hall.
Defined.

(** X19, witness: the network is down, and GitHub answers with HTML. *)
Lemma request_failure_propagates_witness :
  fst (run (handle example_engine [] simple_new_URL unreachable_upstream
              (SummarizePullRequest scenario_url None None None None None)) tt)
    = Throw (Error (lit "fetch failed")) /\
  fst (run (handle example_engine [] simple_new_URL
              (constant_upstream not_json)
              (ListRepos None None)) tt) = Throw SyntaxError.
Proof.
  split.
  - set (res := run (handle example_engine [] simple_new_URL
                       unreachable_upstream
                       (SummarizePullRequest scenario_url None None None None
                          None)) tt).
    apply (request_failure_propagates example_engine [] simple_new_URL
             unreachable_upstream
             (SummarizePullRequest scenario_url None None None None None) tt
             (fst res) (snd res)
             (json_request []
                (address (lit "https://api.github.com/repos/acme/widgets/pulls/42")),
              inl (Error (lit "fetch failed")))
             (Error (lit "fetch failed")));
      [reflexivity|left; reflexivity|reflexivity].
  - set (res := run (handle example_engine [] simple_new_URL
                       (constant_upstream not_json)
                       (ListRepos None None)) tt).
    apply (request_failure_propagates example_engine [] simple_new_URL
             (constant_upstream not_json) (ListRepos None None) tt
             (fst res) (snd res)
             (List.hd (json_request [] (address []), inl TypeError)
                (log (snd res)))
             SyntaxError);
      [reflexivity|left; reflexivity|reflexivity].
Defined.


(** X21, witness: the summary of the scenario, without the diff. *)
Lemma diff_fetched_only_when_asked_witness :
  Forall (fun e : Request * (exn + Response) =>
            Accept (fst e) = lit "application/vnd.github+json")
    (log (snd (run (handle example_engine [] simple_new_URL scenario_upstream
                      (SummarizePullRequest scenario_url None None None None
                         None)) tt))).
Proof.
  exact (diff_fetched_only_when_asked example_engine [] simple_new_URL
           scenario_upstream
           (SummarizePullRequest scenario_url None None None None None) tt
           eq_refl).
Defined.

(** X22, witness: a page of seventy thousand records, on an engine whose
    calls take up to 65535 arguments. *)
Lemma listPrFilesPaginated_oversized_page_witness :
  fst (run (listPrFilesPaginated example_engine []
              (constant_upstream huge_page)
              (Some (lit "acme")) (Some (lit "widgets")) (Some (lit "42")) 50)
         tt) = Throw RangeError.
Proof.
  rewrite (listPrFilesPaginated_oversized_page example_engine []
             (constant_upstream huge_page)
             (Some (lit "acme")) (Some (lit "widgets")) (Some (lit "42")) 50
             tt tt huge_page (repeat JNull (Z.to_nat 70000))
             ltac:(lia) eq_refl eq_refl eq_refl).
  - reflexivity.
  - rewrite repeat_length. cbn [max_arguments example_engine]. lia.
Defined.
